(** * GWForge.population.mass: the source-frame mass sampler

    A shallow embedding of [src/GWForge/population/mass.py] and the
    properties of its specification.

    Conventions of the embedding.
    - Python floats and numpy float64 arrays are idealised as exact
      rationals ([Qc]) and lists of them; [+], [-], [*], [/] and the
      comparisons are the field operations, so rounding, [inf] and [nan]
      are outside the model.  In particular [x / 0] is [0] in [Qc], where
      numpy answers [inf] or [nan]: no statement below rests on the value
      of a quotient by zero.
    - A Python [dict] with string keys is a [gmap string _]; a missing key
      raises [KeyError].
    - Exceptions are values of [exn]; code that may raise returns
      [result A].  [Mass.sample] threads the local [samples] dictionary,
      the state of numpy's random generator and the log through a small
      state-and-error monad, so that what a failed [try] block leaves
      behind is visible to the [except] block.
    - numpy, bilby, gwpopulation and the sibling modules [GWForge.utils]
      and [GWForge.conversion] are not part of the file; what the code
      calls in them is collected in the record [Externals]. *)

From Stdlib Require Import QArith Qcanon.
From stdpp Require Import base numbers strings list gmap fin_maps.

Local Open Scope Qc_scope.
Set Warnings "-abstract-large-number".

(** ** Python strings *)

Module Str.

(** [sub in s] on Python strings: [sub] occurs in [s] as a contiguous
    block. *)
Fixpoint str_in (sub s : string) : bool :=
  String.prefix sub s ||
  match s with
  | EmptyString => false
  | String _ s' => str_in sub s'
  end.

(** The same, as a proposition. *)
Definition occurs (sub s : string) : Prop :=
  ∃ pre suf, s = pre +:+ sub +:+ suf.

(** [str.lower()] on ASCII text. *)
Definition lower_ascii (c : Ascii.ascii) : Ascii.ascii :=
  let n := Ascii.nat_of_ascii c in
  if bool_decide (65 ≤ n ≤ 90)%nat then Ascii.ascii_of_nat (n + 32) else c.

Fixpoint lower (s : string) : string :=
  match s with
  | EmptyString => EmptyString
  | String c s' => String (lower_ascii c) (lower s')
  end.

(** [repr] of a string without quotes or backslashes, and [repr] (which is
    also [str]) of a list of such strings. *)
Definition repr_str (s : string) : string := "'" +:+ s +:+ "'".

Fixpoint join (sep : string) (l : list string) : string :=
  match l with
  | [] => ""
  | [s] => s
  | s :: l' => s +:+ sep +:+ join sep l'
  end.

Definition repr_list (l : list string) : string :=
  "[" +:+ join ", " (repr_str <$> l) +:+ "]".

End Str.

Export Str.

(** ** Exceptions *)

Inductive exn : Type :=
  | UnboundLocalError (var : string)
  | KeyError (key : string)
  | ValueError (msg : string)
  | LibraryError (what : string).

Definition result (A : Type) : Type := exn + A.

(** [d[k]] on a dictionary. *)
Definition getitem {V} (d : gmap string V) (k : string) : result V :=
  match d !! k with
  | Some v => inr v
  | None => inl (KeyError k)
  end.

(** ** numpy arrays *)

Module Np.

(** Array with array, element by element.  numpy raises when the shapes
    differ; every use below combines arrays that were mapped from one and
    the same array (see [length_zip_same]). *)
Definition zip_arr (op : Qc → Qc → Qc) (a b : list Qc) : list Qc :=
  zip_with op a b.

(** [numpy.ones(n)] and [numpy.zeros_like(a)]. *)
Definition ones (n : nat) : list Qc := replicate n 1.
Definition zeros_like (a : list Qc) : list Qc := (λ _, 0) <$> a.

(** [numpy.linspace(start, stop, num)] with the default [endpoint=True]:
    [num] points [start + i * step], [step = (stop - start) / (num - 1)],
    the last one set to [stop]. *)
Definition linspace (start stop : Qc) (num : nat) : list Qc :=
  let div := (num - 1)%nat in
  let step := (stop - start) / Qc_of_Z (Z.of_nat div) in
  (λ i : nat, if bool_decide (i = div) then stop
              else Qc_of_Z (Z.of_nat i) * step + start) <$> seq 0 num.

(** Boolean masks [a <= x] and [a > x]. *)
Definition le_mask (a : list Qc) (x : Qc) : list bool :=
  (λ v, bool_decide (v ≤ x)) <$> a.
Definition gt_mask (a : list Qc) (x : Qc) : list bool :=
  (λ v, bool_decide (x < v)) <$> a.

(** [a[mask]]: the elements of [a] where the mask holds. *)
Fixpoint select (a : list Qc) (mask : list bool) : list Qc :=
  match a, mask with
  | v :: a', true :: mask' => v :: select a' mask'
  | _ :: a', false :: mask' => select a' mask'
  | _, _ => []
  end.

(** [a[mask] = vals]: the positions of [a] where the mask holds take the
    values of [vals] in order.  numpy raises when [vals] has another
    length than the number of selected positions (a one-element [vals]
    apart); the code always assigns values computed from [a'[mask]] with
    the same mask, and positions for which [vals] has run out are left
    as they are. *)
Fixpoint assign (a : list Qc) (mask : list bool) (vals : list Qc) : list Qc :=
  match a, mask with
  | v :: a', true :: mask' =>
      match vals with
      | w :: vals' => w :: assign a' mask' vals'
      | [] => v :: assign a' mask' []
      end
  | v :: a', false :: mask' => v :: assign a' mask' vals
  | _, _ => a
  end.

(** [numpy.min] and [numpy.max]; both raise on an empty array. *)
Definition min (a : list Qc) : result Qc :=
  match a with
  | [] => inl (ValueError "zero-size array to reduction operation minimum which has no identity")
  | v :: a' => inr (foldl (λ m x, if bool_decide (x < m) then x else m) v a')
  end.

Definition max (a : list Qc) : result Qc :=
  match a with
  | [] => inl (ValueError "zero-size array to reduction operation maximum which has no identity")
  | v :: a' => inr (foldl (λ m x, if bool_decide (m < x) then x else m) v a')
  end.

End Np.

(** ** The error monad of [result] *)

Global Instance result_ret : MRet result := λ A x, inr x.
Global Instance result_bind : MBind result := λ A B f m,
  match m with
  | inl e => inl e
  | inr x => f x
  end.

(** ** What the module calls outside itself *)

(** A bilby prior object, as the arguments it was constructed with. *)
Inductive Prior : Type :=
  | Interped (xx yy : list Qc) (minimum maximum : Qc) (name : option string)
  | Uniform (minimum maximum : Qc) (name : option string)
  | TruncatedGaussian (mu sigma minimum maximum : Qc)
  | LogNormal (mu sigma : Qc)
  | PowerLaw (alpha minimum maximum : Qc).

(** The three [gwpopulation.models.mass] classes of the first tier. *)
Inductive model_class : Type :=
  | SinglePeakSmoothedMassDistribution
  | MultiPeakSmoothedMassDistribution
  | BrokenPowerLawSmoothedMassDistribution.

Record Externals : Type := {
  (** numpy: [x ** y] and the state of the global random generator *)
  power : Qc → Qc → Qc;
  RandomState : Type;
  (** bilby: what a constructor raises, if anything; the density
      [prior.prob] at one value (it is applied element by element to an
      array); [prior.sample(size)] *)
  prior_init : Prior → option exn;
  prior_prob : Prior → Qc → Qc;
  prior_sample : Prior → nat → RandomState → result (list Qc) * RandomState;
  (** gwpopulation: import and construction of a model with its
      [normalization_shape], its grids [m1s] and [qs], its densities
      [p_m1(dataset, **kwargs)] and [p_q(dataset, **kwargs)] *)
  Model : Type;
  new_model : model_class → nat * nat → result Model;
  m1s : Model → list Qc;
  qs : Model → list Qc;
  p_m1 : Model → gmap string (list Qc) → gmap string Qc → result (list Qc);
  p_q : Model → gmap string (list Qc) → gmap string Qc → result (list Qc);
  (** GWForge: [utils.remove_special_characters] and
      [conversion.generate_mass_parameters(samples, source)] *)
  remove_special_characters : string → string;
  generate_mass_parameters : gmap string (list Qc) → bool → gmap string (list Qc);
}.

(** A decimal literal [n / d]. *)
Definition dec (n : Z) (d : positive) : Qc := Q2Qc (n # d).

(** The module-level list [choices]. *)
Definition choices : list string :=
  ["PowerLaw+Peak"; "MultiPeak"; "BrokenPowerLaw"; "UniformSecondary";
   "DoubleGaussian"; "LogNormal"; "PowerLawDipBreak"; "PowerLaw"].

Inductive level : Type := WARNING | INFO.

(** The instance attributes of [Mass]. *)
Record Mass : Type := {
  mass_model : string;
  number_of_samples : nat;
  parameters : gmap string Qc;
}.

(** The default of the [parameters] argument of [Mass.__init__]. *)
Definition default_parameters : gmap string Qc :=
  {[ "alpha" := dec 337 100; "beta" := dec 76 100; "delta_m" := dec 523 100;
     "mmin" := dec 489 100; "mmax" := dec 8881 100; "lam" := dec 4 100;
     "mpp" := dec 3360 100; "sigpp" := dec 459 100 ]}.

Section Mass.

Variable E : Externals.

(** *** The two filters *)

Definition notch_filter (val : list Qc) (parameters : gmap string Qc)
  : result (list Qc) :=
  A ← getitem parameters "A";
  gamma_low ← getitem parameters "gamma_low";
  eta_low ← getitem parameters "eta_low";
  gamma_high ← getitem parameters "gamma_high";
  eta_high ← getitem parameters "eta_high";
  mret ((λ d, 1 - A / d) <$>
        Np.zip_arr Qcmult
          ((λ v, 1 + power E (gamma_low / v) eta_low) <$> val)
          ((λ v, 1 + power E (v / gamma_high) eta_high) <$> val)).

Definition low_pass_filter (val : list Qc) (parameters : gmap string Qc)
  : result (list Qc) :=
  mmax ← getitem parameters "mmax";
  n ← getitem parameters "n";
  mret ((λ v, 1 / (1 + power E (v / mmax) n)) <$> val).

(** *** [Mass.__init__] *)

Definition Mass_init (mass_model : string) (number_of_samples : nat)
    (parameters : gmap string Qc) : Mass :=
  {| mass_model := remove_special_characters E (lower mass_model);
     number_of_samples := number_of_samples;
     parameters := parameters |}.

(** *** The state that [Mass.sample] works on *)

Record state : Type := State {
  samples : gmap string (list Qc);
  random : RandomState E;
  log : list (level * string);
}.

Definition M (A : Type) : Type := state → result A * state.

Global Instance M_ret : MRet M := λ A x s, (inr x, s).
Global Instance M_bind : MBind M := λ A B f m s,
  match m s with
  | (inl e, s') => (inl e, s')
  | (inr x, s') => f x s'
  end.

Definition raise {A} (e : exn) : M A := λ s, (inl e, s).

Definition lift {A} (r : result A) : M A := λ s, (r, s).

(** [try: body except: handler], with a bare [except]. *)
Definition try_except (body handler : M ()) : M () := λ s,
  match body s with
  | (inl _, s') => handler s'
  | (inr x, s') => (inr x, s')
  end.

(** [samples[key] = val] *)
Definition setitem (key : string) (val : list Qc) : M () := λ s,
  (inr (), State (<[key := val]> (samples s)) (random s) (log s)).

(** [samples[key]] *)
Definition getsample (key : string) : M (list Qc) := λ s,
  (getitem (samples s) key, s).

Definition logging (lv : level) (msg : string) : M () := λ s,
  (inr (), State (samples s) (random s) (log s ++ [(lv, msg)])).

(** A call of a bilby constructor. *)
Definition construct (p : Prior) : M Prior := λ s,
  match prior_init E p with
  | Some e => (inl e, s)
  | None => (inr p, s)
  end.

(** [prior.sample(size)], which advances the random generator. *)
Definition draw (p : Prior) (size : nat) : M (list Qc) := λ s,
  let '(r, g) := prior_sample E p size (random s) in
  (r, State (samples s) g (log s)).

(** *** The first tier: the gwpopulation models *)

(** [{param: parameters[param] for param in parameters if param not in ('beta')}]:
    [('beta')] is the string ['beta'], so [in] is the substring test. *)
Definition tier1_mass_parameters (parameters : gmap string Qc) : gmap string Qc :=
  filter (λ kv : string * Qc, ¬ str_in kv.1 "beta") parameters.

(** [{... if param in ('beta', 'mmin', 'delta_m')}] *)
Definition tier1_mass_ratio_parameters (parameters : gmap string Qc) : gmap string Qc :=
  filter (λ kv : string * Qc, kv.1 ∈ ["beta"; "mmin"; "delta_m"]) parameters.

Definition tier1 (self : Mass) : M () :=
  model ←
    (if str_in "powerlawpeak" (mass_model self) then
       lift (new_model E SinglePeakSmoothedMassDistribution (1000, 1000)%nat)
     else if str_in "multipeak" (mass_model self) then
       lift (new_model E MultiPeakSmoothedMassDistribution (1000, 1000)%nat)
     else if str_in "brokenpowerlaw" (mass_model self) then
       lift (new_model E BrokenPowerLawSmoothedMassDistribution (1000, 1000)%nat)
     else raise (UnboundLocalError "model"));
  let mass1 := m1s E model in
  let mass_ratio := qs E model in
  let mass_parameters := tier1_mass_parameters (parameters self) in
  let mass_ratio_parameters := tier1_mass_ratio_parameters (parameters self) in
  prob_mass_1 ← lift (p_m1 E model {[ "mass_1" := mass1 ]} mass_parameters);
  prob_mass_ratio ←
    lift (p_q E model {[ "mass_ratio" := mass_ratio; "mass_1" := mass1 ]}
            mass_ratio_parameters);
  lo ← lift (Np.min mass1);
  hi ← lift (Np.max mass1);
  primary_mass_prior ←
    construct (Interped mass1 prob_mass_1 lo hi (Some "mass_1_source"));
  lo ← lift (Np.min mass_ratio);
  hi ← lift (Np.max mass_ratio);
  mass_ratio_prior ←
    construct (Interped mass_ratio prob_mass_ratio lo hi (Some "mass_ratio"));
  v ← draw primary_mass_prior (number_of_samples self);
  setitem "mass_1_source" v;;
  v ← draw mass_ratio_prior (number_of_samples self);
  setitem "mass_ratio" v.

(** *** The second tier: the branches of the [except] block *)

(** [self.parameters[key]] *)
Definition param (self : Mass) (key : string) : M Qc :=
  lift (getitem (parameters self) key).

Definition tier2_uniformsecondary (self : Mass) : M () :=
  model ← lift (new_model E SinglePeakSmoothedMassDistribution (1000, 1000)%nat);
  let mass_parameters :=
    filter (λ kv : string * Qc,
              kv.1 ∉ ["beta"; "minimum_secondary_mass"; "maximum_secondary_mass"])
           (parameters self) in
  let mass1 := m1s E model in
  prob_mass_1 ← lift (p_m1 E model {[ "mass_1" := mass1 ]} mass_parameters);
  lo ← lift (Np.min mass1);
  hi ← lift (Np.max mass1);
  primary_mass_prior ←
    construct (Interped mass1 prob_mass_1 lo hi (Some "mass_1_source"));
  v ← draw primary_mass_prior (number_of_samples self);
  setitem "mass_1_source" v;;
  minimum ← param self "minimum_secondary_mass";
  maximum ← param self "maximum_secondary_mass";
  secondar_mass_prior ← construct (Uniform minimum maximum (Some "mass_2_source"));
  v ← draw secondar_mass_prior (number_of_samples self);
  setitem "mass_2_source" v.

Definition tier2_doublegaussian (self : Mass) : M () :=
  mmin ← param self "mmin";
  mmax ← param self "mmax";
  let mass := Np.linspace mmin mmax 5001 in
  mu_1 ← param self "mu_1";
  sigma_1 ← param self "sigma_1";
  prior_1 ← construct (TruncatedGaussian mu_1 sigma_1 mmin mmax);
  breaking_fraction ← param self "breaking_fraction";
  let prob_1 := (λ p, p * breaking_fraction) <$> (prior_prob E prior_1 <$> mass) in
  mu_2 ← param self "mu_2";
  sigma_2 ← param self "sigma_2";
  prior_2 ← construct (TruncatedGaussian mu_2 sigma_2 mmin mmax);
  let prob_2 := (λ p, p * (1 - breaking_fraction)) <$> (prior_prob E prior_2 <$> mass) in
  let prob := Np.zip_arr Qcplus prob_1 prob_2 in
  lo ← lift (Np.min mass);
  hi ← lift (Np.max mass);
  mass_prior ← construct (Interped mass prob lo hi None);
  v ← draw mass_prior (number_of_samples self);
  setitem "mass_1_source" v;;
  v ← draw mass_prior (number_of_samples self);
  setitem "mass_2_source" v.

Definition tier2_lognormal (self : Mass) : M () :=
  mu ← param self "mu";
  sigma ← param self "sigma";
  mass_prior ← construct (LogNormal mu sigma);
  v ← draw mass_prior (number_of_samples self);
  setitem "mass_1_source" v;;
  v ← draw mass_prior (number_of_samples self);
  setitem "mass_2_source" v.

Definition tier2_dip (self : Mass) : M () :=
  mmin ← param self "mmin";
  mmax ← param self "mmax";
  let mass := Np.linspace mmin mmax 5001 in
  let prob := Np.zeros_like mass in
  alpha_1 ← param self "alpha_1";
  gamma_high ← param self "gamma_high";
  prior_1 ← construct (PowerLaw alpha_1 mmin gamma_high);
  let below := Np.select mass (Np.le_mask mass gamma_high) in
  let prob_1 := prior_prob E prior_1 <$> below in
  notch ← lift (notch_filter below (parameters self));
  low_pass ← lift (low_pass_filter below (parameters self));
  let prob :=
    Np.assign prob (Np.le_mask mass gamma_high)
      (Np.zip_arr Qcmult (Np.zip_arr Qcmult prob_1 notch) low_pass) in
  alpha_2 ← param self "alpha_2";
  prior_2 ← construct (PowerLaw alpha_2 mmin gamma_high);
  let above := Np.select mass (Np.gt_mask mass gamma_high) in
  let prob_2 := prior_prob E prior_2 <$> above in
  notch ← lift (notch_filter above (parameters self));
  low_pass ← lift (low_pass_filter above (parameters self));
  let prob :=
    Np.assign prob (Np.gt_mask mass gamma_high)
      (Np.zip_arr Qcmult (Np.zip_arr Qcmult prob_2 notch) low_pass) in
  lo ← lift (Np.min mass);
  hi ← lift (Np.max mass);
  prior ← construct (Interped mass prob lo hi None);
  v ← draw prior (number_of_samples self);
  setitem "mass_1_source" v;;
  v ← draw prior (number_of_samples self);
  setitem "mass_2_source" v.

Definition tier2_powerlaw (self : Mass) : M () :=
  alpha ← param self "alpha";
  mmin ← param self "mmin";
  mmax ← param self "mmax";
  mass_prior ← construct (PowerLaw alpha mmin mmax);
  v ← draw mass_prior (number_of_samples self);
  setitem "mass_1_source" v;;
  v ← draw mass_prior (number_of_samples self);
  setitem "mass_2_source" v.

Definition tier2_fixed (self : Mass) : M () :=
  primary_mass ← param self "primary_mass";
  setitem "mass_1_source"
    ((λ one, one * primary_mass) <$> Np.ones (number_of_samples self));;
  mass_1_source ← getsample "mass_1_source";
  mass_ratio ← param self "mass_ratio";
  let factor := if bool_decide (mass_ratio < 1) then mass_ratio else 1 / mass_ratio in
  setitem "mass_2_source" ((λ m, m * factor) <$> mass_1_source).

(** The message of the [ValueError] of the last branch. *)
Definition not_implemented (self : Mass) : string :=
  mass_model self +:+ " is not implemented in gwpopulation. Please choose from "
    +:+ repr_list choices.

Definition tier2_else (self : Mass) : M () :=
  raise (ValueError (not_implemented self)).

Definition tier2 (self : Mass) : M () :=
  logging WARNING "Parameterised mass model does not exist in gwpopulation";;
  logging INFO ("Generating samples using " +:+ mass_model self +:+ " model");;
  if str_in "uniformsecondary" (mass_model self) then tier2_uniformsecondary self
  else if str_in "doublegaussian" (mass_model self) then tier2_doublegaussian self
  else if str_in "lognormal" (mass_model self) || str_in "loggaussian" (mass_model self)
  then tier2_lognormal self
  else if str_in "dip" (mass_model self) then tier2_dip self
  else if str_in "powerlaw" (mass_model self) then tier2_powerlaw self
  else if str_in "fixed" (mass_model self) then tier2_fixed self
  else tier2_else self.

(** *** [Mass.sample] *)

(** Lines 48 to 170: [samples = {}] and the [try] statement. *)
Definition sample_body (self : Mass) : M () := λ s,
  try_except (tier1 self) (tier2 self) (State ∅ (random s) (log s)).

(** The whole method, from the state of the random generator and the log
    so far: what it returns or raises, and the generator and the log
    afterwards. *)
Definition sample (self : Mass) (g : RandomState E) (lg : list (level * string))
  : result (gmap string (list Qc)) * RandomState E * list (level * string) :=
  let '(r, s) := sample_body self (State ∅ g lg) in
  (_ ← r; mret (generate_mass_parameters E (samples s) true), random s, log s).

End Mass.

(** ** The dispatch on the model name, as tags *)

(** Which gwpopulation class, if any, the [try] block constructs. *)
Definition tier1_class (name : string) : option model_class :=
  if str_in "powerlawpeak" name then Some SinglePeakSmoothedMassDistribution
  else if str_in "multipeak" name then Some MultiPeakSmoothedMassDistribution
  else if str_in "brokenpowerlaw" name then Some BrokenPowerLawSmoothedMassDistribution
  else None.

(** The branches of the [if]/[elif] chain of the [except] block. *)
Inductive branch : Type :=
  | B_uniformsecondary
  | B_doublegaussian
  | B_lognormal
  | B_dip
  | B_powerlaw
  | B_fixed
  | B_else.

Definition tier2_branch (name : string) : branch :=
  if str_in "uniformsecondary" name then B_uniformsecondary
  else if str_in "doublegaussian" name then B_doublegaussian
  else if str_in "lognormal" name || str_in "loggaussian" name then B_lognormal
  else if str_in "dip" name then B_dip
  else if str_in "powerlaw" name then B_powerlaw
  else if str_in "fixed" name then B_fixed
  else B_else.

Definition run_branch (E : Externals) (b : branch) (self : Mass) : M E () :=
  match b with
  | B_uniformsecondary => tier2_uniformsecondary E self
  | B_doublegaussian => tier2_doublegaussian E self
  | B_lognormal => tier2_lognormal E self
  | B_dip => tier2_dip E self
  | B_powerlaw => tier2_powerlaw E self
  | B_fixed => tier2_fixed E self
  | B_else => tier2_else E self
  end.

(** The two records that the [except] block logs first. *)
Definition fallback_log (self : Mass) : list (level * string) :=
  [(WARNING, "Parameterised mass model does not exist in gwpopulation");
   (INFO, "Generating samples using " +:+ mass_model self +:+ " model")].

(** The parameters that a branch reads from [self.parameters], in the
    order of their first use. *)
Definition required_parameters (b : branch) : list string :=
  match b with
  | B_uniformsecondary => ["minimum_secondary_mass"; "maximum_secondary_mass"]
  | B_doublegaussian =>
      ["mmin"; "mmax"; "mu_1"; "sigma_1"; "breaking_fraction"; "mu_2"; "sigma_2"]
  | B_lognormal => ["mu"; "sigma"]
  | B_dip =>
      ["mmin"; "mmax"; "alpha_1"; "gamma_high"; "A"; "gamma_low"; "eta_low";
       "eta_high"; "n"; "alpha_2"]
  | B_powerlaw => ["alpha"; "mmin"; "mmax"]
  | B_fixed => ["primary_mass"; "mass_ratio"]
  | B_else => []
  end.

(** The parameter that a branch reads before it calls anything outside
    the module, if it starts with a parameter. *)
Definition first_parameter (b : branch) : option string :=
  match b with
  | B_uniformsecondary | B_else => None
  | B_doublegaussian | B_dip => Some "mmin"
  | B_lognormal => Some "mu"
  | B_powerlaw => Some "alpha"
  | B_fixed => Some "primary_mass"
  end.

(** The first of [keys] that is not in the mapping. *)
Definition first_missing (keys : list string) (d : gmap string Qc) : option string :=
  head (filter (λ k, d !! k = None) keys).

(** The keys that the two filters read, in the order they read them. *)
Definition notch_keys : list string :=
  ["A"; "gamma_low"; "eta_low"; "gamma_high"; "eta_high"].
Definition low_pass_keys : list string := ["mmax"; "n"].

(** ** The formulas of the specification *)

Module Spec.

Section Formulas.

Variable E : Externals.

(** notch(v) = 1 - A / [(1 + (gamma_low / v)^eta_low) * (1 + (v / gamma_high)^eta_high)] *)
Definition notch (A gamma_low eta_low gamma_high eta_high v : Qc) : Qc :=
  1 - A / ((1 + power E (gamma_low / v) eta_low)
           * (1 + power E (v / gamma_high) eta_high)).

(** lowpass(v) = 1 / (1 + (v / mmax)^n) *)
Definition lowpass (mmax n v : Qc) : Qc :=
  1 / (1 + power E (v / mmax) n).

(** The filters with their parameters read from a mapping. *)
Record dip_parameters : Type := {
  d_A : Qc; d_gamma_low : Qc; d_eta_low : Qc; d_gamma_high : Qc;
  d_eta_high : Qc; d_mmin : Qc; d_mmax : Qc; d_n : Qc;
  d_alpha_1 : Qc; d_alpha_2 : Qc;
}.

(** [parameters] holds the values of [d] under the names of the dip model. *)
Definition holds_dip (parameters : gmap string Qc) (d : dip_parameters) : Prop :=
  parameters !! "A" = Some (d_A d) ∧
  parameters !! "gamma_low" = Some (d_gamma_low d) ∧
  parameters !! "eta_low" = Some (d_eta_low d) ∧
  parameters !! "gamma_high" = Some (d_gamma_high d) ∧
  parameters !! "eta_high" = Some (d_eta_high d) ∧
  parameters !! "mmin" = Some (d_mmin d) ∧
  parameters !! "mmax" = Some (d_mmax d) ∧
  parameters !! "n" = Some (d_n d) ∧
  parameters !! "alpha_1" = Some (d_alpha_1 d) ∧
  parameters !! "alpha_2" = Some (d_alpha_2 d).

(** The combined density of the dip model: below and at [gamma_high] the
    power law with exponent [alpha_1], above it the one with exponent
    [alpha_2], both bounded [mmin]..[gamma_high], each times the notch
    filter times the low-pass filter. *)
Definition dip_density (d : dip_parameters) (m : Qc) : Qc :=
  if bool_decide (m ≤ d_gamma_high d) then
    prior_prob E (PowerLaw (d_alpha_1 d) (d_mmin d) (d_gamma_high d)) m
    * notch (d_A d) (d_gamma_low d) (d_eta_low d) (d_gamma_high d) (d_eta_high d) m
    * lowpass (d_mmax d) (d_n d) m
  else
    prior_prob E (PowerLaw (d_alpha_2 d) (d_mmin d) (d_gamma_high d)) m
    * notch (d_A d) (d_gamma_low d) (d_eta_low d) (d_gamma_high d) (d_eta_high d) m
    * lowpass (d_mmax d) (d_n d) m.

(** The mixture density of the double-Gaussian model. *)
Definition mixture_density (mmin mmax mu_1 sigma_1 mu_2 sigma_2 breaking_fraction m : Qc)
  : Qc :=
  breaking_fraction * prior_prob E (TruncatedGaussian mu_1 sigma_1 mmin mmax) m
  + (1 - breaking_fraction) * prior_prob E (TruncatedGaussian mu_2 sigma_2 mmin mmax) m.

(** The [i]-th point of the linear grid of [num] points from [start] to
    [stop]. *)
Definition grid_point (start stop : Qc) (num i : nat) : Qc :=
  if bool_decide (i = (num - 1)%nat) then stop
  else start + Qc_of_Z (Z.of_nat i) * ((stop - start) / Qc_of_Z (Z.of_nat (num - 1))).

(** Two draws of [size] values from one prior, one after the other, from
    the generator state [g]. *)
Definition two_draws (p : Prior) (size : nat) (g : RandomState E)
    (v1 v2 : list Qc) (g' : RandomState E) : Prop :=
  ∃ g1, prior_sample E p size g = (inr v1, g1) ∧
        prior_sample E p size g1 = (inr v2, g').

End Formulas.

End Spec.

(** ** A small stand-in for the outside world

    Used only to run the embedding on concrete inputs. *)

Module Fixture.

(** Modelled from the spec: [utils.remove_special_characters] is not in
    the sources; the specification says the name is punctuation-normalised,
    so only letters and digits are kept. *)
Definition alnum (c : Ascii.ascii) : bool :=
  let n := Ascii.nat_of_ascii c in
  bool_decide (48 ≤ n ≤ 57)%nat || bool_decide (65 ≤ n ≤ 90)%nat
  || bool_decide (97 ≤ n ≤ 122)%nat.

Fixpoint strip (s : string) : string :=
  match s with
  | EmptyString => EmptyString
  | String c s' => if alnum c then String c (strip s') else strip s'
  end.

(** Modelled from the spec: [conversion.generate_mass_parameters] is not
    in the sources; the specification says it adds derived quantities to
    the mapping.  Here it adds the total mass when both masses are there
    and the total mass is not. *)
Definition add_total_mass (s : gmap string (list Qc)) (source : bool)
  : gmap string (list Qc) :=
  match s !! "mass_1_source", s !! "mass_2_source", s !! "total_mass_source" with
  | Some m1, Some m2, None =>
      <[ "total_mass_source" := zip_with Qcplus m1 m2 ]> s
  | _, _, _ => s
  end.

(** A density that is 1 on the support of the prior and 0 outside. *)
Definition box (lo hi v : Qc) : Qc :=
  if bool_decide (lo ≤ v) && bool_decide (v ≤ hi) then 1 else 0.

Definition density (p : Prior) (v : Qc) : Qc :=
  match p with
  | Interped _ _ lo hi _ => box lo hi v
  | Uniform lo hi _ => box lo hi v
  | TruncatedGaussian _ _ lo hi => box lo hi v
  | LogNormal _ _ => 1
  | PowerLaw _ lo hi => box lo hi v
  end.

(** A draw that returns [size] copies of one point of the support and
    counts the draws taken. *)
Definition anchor (p : Prior) : Qc :=
  match p with
  | Interped _ _ lo _ _ => lo
  | Uniform lo _ _ => lo
  | TruncatedGaussian _ _ lo _ => lo
  | LogNormal _ _ => 1
  | PowerLaw _ lo _ => lo
  end.

Definition draw_anchor (p : Prior) (size : nat) (g : nat)
  : result (list Qc) * nat :=
  (inr (replicate size (anchor p)), S g).

(** [x ** y] for a whole, non-negative [y]. *)
Definition whole_power (x y : Qc) : Qc :=
  Qcpower x (Z.to_nat (Qnum (this y))).

(** The outside world, with gwpopulation installed or not. *)
Definition env (installed : bool) : Externals :=
  {| power := whole_power;
     RandomState := nat;
     prior_init := λ _, None;
     prior_prob := density;
     prior_sample := draw_anchor;
     Model := model_class;
     new_model := λ c _,
       if installed then inr c
       else inl (LibraryError "ModuleNotFoundError: No module named 'gwpopulation'");
     m1s := λ _, [dec 2 1; dec 50 1; dec 100 1];
     qs := λ _, [dec 1 10; dec 1 2; dec 1 1];
     p_m1 := λ _ _ _, inr [dec 1 1; dec 1 1; dec 1 1];
     p_q := λ _ _ _, inr [dec 1 1; dec 1 1; dec 1 1];
     remove_special_characters := strip;
     generate_mass_parameters := add_total_mass |}.

Definition fixed_parameters (ratio : Qc) : gmap string Qc :=
  {[ "primary_mass" := dec 30 1; "mass_ratio" := ratio ]}.

Definition dip_parameters : gmap string Qc :=
  {[ "A" := dec 1 2; "gamma_low" := dec 2 1; "eta_low" := dec 2 1;
     "gamma_high" := dec 6 1; "eta_high" := dec 2 1; "mmin" := dec 1 1;
     "mmax" := dec 11 1; "n" := dec 2 1; "alpha_1" := dec 1 1;
     "alpha_2" := dec 2 1 ]}.

Definition dip_values : Spec.dip_parameters :=
  {| Spec.d_A := dec 1 2; Spec.d_gamma_low := dec 2 1; Spec.d_eta_low := dec 2 1;
     Spec.d_gamma_high := dec 6 1; Spec.d_eta_high := dec 2 1;
     Spec.d_mmin := dec 1 1; Spec.d_mmax := dec 11 1; Spec.d_n := dec 2 1;
     Spec.d_alpha_1 := dec 1 1; Spec.d_alpha_2 := dec 2 1 |}.

Definition uniformsecondary_parameters : gmap string Qc :=
  {[ "alpha" := dec 337 100; "beta" := dec 76 100; "mmin" := dec 489 100;
     "minimum_secondary_mass" := dec 1 1; "maximum_secondary_mass" := dec 3 1 ]}.

Definition lognormal_parameters : gmap string Qc :=
  {[ "mu" := dec 3 1; "sigma" := dec 1 2 ]}.

Definition doublegaussian_parameters : gmap string Qc :=
  {[ "mmin" := dec 1 1; "mmax" := dec 11 1; "mu_1" := dec 3 1;
     "sigma_1" := dec 1 1; "mu_2" := dec 8 1; "sigma_2" := dec 1 1;
     "breaking_fraction" := dec 1 4 ]}.

End Fixture.

(** ** Postconditions of a run *)

(** [post m Qe Q s]: run from [s], [m] either raises some [e] and leaves a
    state with [Qe e], or returns some [x] and leaves a state with [Q x]. *)
Definition post (E : Externals) {A} (m : M E A) (Qe : exn → state E → Prop)
    (Q : A → state E → Prop) (s : state E) : Prop :=
  match m s with
  | (inl e, s') => Qe e s'
  | (inr x, s') => Q x s'
  end.


(** * Properties *)

(** ** Strings *)

Lemma app_cons (c : Ascii.ascii) (a b : string) :
  String c a +:+ b = String c (a +:+ b).
Proof. reflexivity. Qed.

Lemma prefix_app (a s : string) :
  String.prefix a s = true ↔ ∃ suf, s = a +:+ suf.
Proof.
  revert s. induction a as [|c a IH]; intros s.
  - split; [intros _; exists s; reflexivity | intros _; by destruct s].
  - destruct s as [|d s]; simpl.
    + split; [done | intros [suf H]; rewrite app_cons in H; discriminate].
    + destruct (Ascii.ascii_dec c d) as [->|Hne].
      * rewrite IH. split; intros [suf H]; exists suf;
          rewrite app_cons in *; congruence.
      * split; [done | intros [suf H]; rewrite app_cons in H; congruence].
Qed.

Lemma str_in_nil (a : string) : str_in a "" = String.prefix a "".
Proof. unfold str_in. apply orb_false_r. Qed.

Lemma str_in_cons (a : string) (d : Ascii.ascii) (s : string) :
  str_in a (String d s) = String.prefix a (String d s) || str_in a s.
Proof. reflexivity. Qed.

Lemma str_in_occurs (a s : string) : str_in a s = true ↔ occurs a s.
Proof.
  unfold occurs. induction s as [|d s IH].
  - rewrite str_in_nil, prefix_app. split.
    + intros [suf H]. by exists "", suf.
    + intros [[|c pre] [suf H]].
      * by exists suf.
      * rewrite app_cons in H. discriminate.
  - rewrite str_in_cons, orb_true_iff, prefix_app, IH. split.
    + intros [[suf H]|(pre & suf & H)].
      * by exists "", suf.
      * exists (String d pre), suf. by rewrite app_cons, H.
    + intros [[|c pre] [suf H]].
      * left. by exists suf.
      * right. exists pre, suf. rewrite app_cons in H. congruence.
Qed.

Lemma string_app_assoc (a b c : string) : (a +:+ b) +:+ c = a +:+ (b +:+ c).
Proof. induction a as [|x a IH]; [done | by rewrite !app_cons, IH]. Qed.

Lemma occurs_trans (a b c : string) : occurs a b → occurs b c → occurs a c.
Proof.
  intros (p1 & q1 & ->) (p2 & q2 & ->).
  exists (p2 +:+ p1), (q1 +:+ q2). by rewrite !string_app_assoc.
Qed.

Lemma str_in_trans (a b c : string) :
  str_in a b = true → str_in b c = true → str_in a c = true.
Proof. rewrite !str_in_occurs. apply occurs_trans. Qed.

(** ** Arrays *)

Lemma zip_arr_fmap (op : Qc → Qc → Qc) (f h : Qc → Qc) (a : list Qc) :
  Np.zip_arr op (f <$> a) (h <$> a) = (λ v, op (f v) (h v)) <$> a.
Proof.
  unfold Np.zip_arr. induction a as [|v a IH]; [done|].
  cbn [fmap list_fmap zip_with]. f_equal. apply IH.
Qed.

(** Arrays mapped from one array have one length, so that combining them
    element by element is defined. *)
Lemma length_zip_same (f h : Qc → Qc) (a : list Qc) :
  length (f <$> a) = length (h <$> a).
Proof. by rewrite !length_fmap. Qed.

Lemma ones_times (n : nat) (x : Qc) :
  (λ one, one * x) <$> Np.ones n = replicate n x.
Proof. unfold Np.ones. by rewrite fmap_replicate, Qcmult_1_l. Qed.

Lemma linspace_length (start stop : Qc) (num : nat) :
  length (Np.linspace start stop num) = num.
Proof. unfold Np.linspace. by rewrite length_fmap, length_seq. Qed.

Lemma linspace_lookup (start stop : Qc) (num i : nat) :
  (i < num)%nat →
  Np.linspace start stop num !! i = Some (Spec.grid_point start stop num i).
Proof.
  intros Hi. unfold Np.linspace, Spec.grid_point.
  rewrite list_lookup_fmap, lookup_seq_lt by done. cbn.
  case_bool_decide; [done|]. f_equal. ring.
Qed.

Lemma grid_point_first (start stop : Qc) (num : nat) :
  (1 < num)%nat → Spec.grid_point start stop num 0 = start.
Proof.
  intros Hn. unfold Spec.grid_point.
  rewrite bool_decide_eq_false_2 by lia.
  change (Z.of_nat 0) with 0%Z. rewrite Z2Qc_inj_0. ring.
Qed.

Lemma grid_point_last (start stop : Qc) (num : nat) :
  Spec.grid_point start stop num (num - 1) = stop.
Proof. unfold Spec.grid_point. by rewrite bool_decide_eq_true_2. Qed.

Lemma Qcmult_nonneg (x y : Qc) : 0 ≤ x → 0 ≤ y → 0 ≤ x * y.
Proof.
  intros Hx Hy. rewrite <- (Qcmult_0_l y). by apply Qcmult_le_mono_nonneg_r.
Qed.

Lemma Qcinv_nonneg (x : Qc) : 0 ≤ x → 0 ≤ / x.
Proof.
  intros Hx. destruct (Qcle_lt_or_eq _ _ Hx) as [Hlt| <-].
  - apply Qclt_le_weak, Qcnot_le_lt. intros Hle.
    assert (x * / x ≤ x * 0) as H by (by apply Qcmult_le_mono_nonneg_l).
    rewrite Qcmult_inv_r, Qcmult_0_r in H by (by apply not_symmetry, Qclt_not_eq).
    by apply (Qclt_not_le 0 1).
  - by vm_compute.
Qed.

(** An ascending grid starts at its least point. *)
Lemma grid_point_ge_start (start stop : Qc) (num i : nat) :
  start ≤ stop → start ≤ Spec.grid_point start stop num i.
Proof.
  intros Hle. unfold Spec.grid_point. case_bool_decide; [done|].
  rewrite <- (Qcplus_0_r start) at 1. apply Qcplus_le_mono_l.
  apply Qcmult_nonneg.
  - rewrite <- Z2Qc_inj_0, <- Z2Qc_inj_le. lia.
  - apply Qcmult_nonneg.
    + apply Qcle_minus_iff in Hle. exact Hle.
    + apply Qcinv_nonneg. rewrite <- Z2Qc_inj_0, <- Z2Qc_inj_le. lia.
Qed.

Lemma linspace_ge_start (start stop : Qc) (num i : nat) (m : Qc) :
  start ≤ stop → Np.linspace start stop num !! i = Some m → start ≤ m.
Proof.
  intros Hle Hm.
  assert (i < num)%nat as Hi.
  { apply lookup_lt_Some in Hm. by rewrite linspace_length in Hm. }
  rewrite linspace_lookup in Hm by exact Hi. injection Hm as <-.
  by apply grid_point_ge_start.
Qed.

(** Writing [f] of the selected elements back under the same mask. *)
Lemma assign_select (P : Qc → bool) (b f : Qc → Qc) (a : list Qc) :
  Np.assign (b <$> a) (P <$> a) (f <$> Np.select a (P <$> a))
  = (λ v, if P v then f v else b v) <$> a.
Proof.
  induction a as [|v a IH]; [done|].
  cbn [fmap list_fmap Np.assign Np.select].
  change (list_fmap Qc Qc b a) with (b <$> a).
  change (list_fmap Qc bool P a) with (P <$> a).
  destruct (P v); cbn [fmap list_fmap]; f_equal; apply IH.
Qed.

Lemma min_nonempty (a : list Qc) : a ≠ [] → ∃ lo, Np.min a = inr lo.
Proof. destruct a; [done|]. intros _. by eexists. Qed.

Lemma max_nonempty (a : list Qc) : a ≠ [] → ∃ hi, Np.max a = inr hi.
Proof. destruct a; [done|]. intros _. by eexists. Qed.

(** On the grid of 5001 points [numpy.min] and [numpy.max] do not raise. *)
Lemma grid_min_max_defined (start stop : Qc) :
  ∃ lo hi, Np.min (Np.linspace start stop 5001) = inr lo
           ∧ Np.max (Np.linspace start stop 5001) = inr hi.
Proof.
  assert (Np.linspace start stop 5001 ≠ []) as Hne.
  { intros Hnil. apply (f_equal length) in Hnil.
    rewrite linspace_length in Hnil. discriminate Hnil. }
  destruct (min_nonempty _ Hne) as [lo Hlo].
  destruct (max_nonempty _ Hne) as [hi Hhi].
  exists lo, hi. split; assumption.
Qed.

(** ** Running the monad *)

Section Run.

Variable E : Externals.

Lemma bind_run {A B} (m : M E A) (f : A → M E B) (s : state E) :
  (m ≫= f) s =
  match m s with
  | (inl e, s') => (inl e, s')
  | (inr x, s') => f x s'
  end.
Proof. reflexivity. Qed.

End Run.

Ltac run_with tac :=
  repeat (progress
    (try rewrite bind_run;
     cbn [logging setitem getsample lift raise param samples random log];
     try unfold construct, draw, getitem;
     tac;
     cbn [samples random log])).

(** ** The filters *)

Section Filters.

Variable E : Externals.

Lemma notch_filter_fmap (val : list Qc) (parameters : gmap string Qc)
    (A gamma_low eta_low gamma_high eta_high : Qc) :
  parameters !! "A" = Some A →
  parameters !! "gamma_low" = Some gamma_low →
  parameters !! "eta_low" = Some eta_low →
  parameters !! "gamma_high" = Some gamma_high →
  parameters !! "eta_high" = Some eta_high →
  notch_filter E val parameters
    = inr (Spec.notch E A gamma_low eta_low gamma_high eta_high <$> val).
Proof.
  intros HA Hgl Hel Hgh Heh. unfold notch_filter, getitem.
  rewrite HA, Hgl, Hel, Hgh, Heh. cbn.
  by rewrite zip_arr_fmap, <- list_fmap_compose.
Qed.

Lemma low_pass_filter_fmap (val : list Qc) (parameters : gmap string Qc)
    (mmax n : Qc) :
  parameters !! "mmax" = Some mmax →
  parameters !! "n" = Some n →
  low_pass_filter E val parameters = inr (Spec.lowpass E mmax n <$> val).
Proof.
  intros Hmmax Hn. unfold low_pass_filter, getitem. by rewrite Hmmax, Hn.
Qed.

(** C4.  With [A], [gamma_low], [eta_low], [gamma_high], [eta_high],
    [mmax] and [n] in the parameter mapping, the notch filter and the
    low-pass filter do not raise and are the formulas of the
    specification applied to every element of the array: their results
    depend on nothing but the values and the parameters. *)
Theorem filters_elementwise (val : list Qc) (parameters : gmap string Qc)
    (A gamma_low eta_low gamma_high eta_high mmax n : Qc) :
  parameters !! "A" = Some A →
  parameters !! "gamma_low" = Some gamma_low →
  parameters !! "eta_low" = Some eta_low →
  parameters !! "gamma_high" = Some gamma_high →
  parameters !! "eta_high" = Some eta_high →
  parameters !! "mmax" = Some mmax →
  parameters !! "n" = Some n →
  notch_filter E val parameters
    = inr (Spec.notch E A gamma_low eta_low gamma_high eta_high <$> val)
  ∧ low_pass_filter E val parameters = inr (Spec.lowpass E mmax n <$> val).
Proof.
  intros HA Hgl Hel Hgh Heh Hmmax Hn. split.
  - by apply notch_filter_fmap.
  - by apply low_pass_filter_fmap.
Qed.

End Filters.

Lemma filters_elementwise_witness :
  notch_filter (Fixture.env false) [dec 2 1; dec 6 1] Fixture.dip_parameters
    = inr (Spec.notch (Fixture.env false) (dec 1 2) (dec 2 1) (dec 2 1) (dec 6 1)
             (dec 2 1) <$> [dec 2 1; dec 6 1])
  ∧ low_pass_filter (Fixture.env false) [dec 2 1; dec 6 1] Fixture.dip_parameters
    = inr (Spec.lowpass (Fixture.env false) (dec 11 1) (dec 2 1)
             <$> [dec 2 1; dec 6 1]).
Proof. apply filters_elementwise; reflexivity. Defined.

(** ** The dispatch *)

Section Dispatch.

Variable E : Externals.

(** A name that matches none of the first tier leaves [model] unbound. *)
Lemma tier1_unbound (self : Mass) (s : state E) :
  tier1_class (mass_model self) = None →
  tier1 E self s = (inl (UnboundLocalError "model"), s).
Proof.
  unfold tier1_class, tier1. intros H.
  destruct (str_in "powerlawpeak" _); [done|].
  destruct (str_in "multipeak" _); [done|].
  destruct (str_in "brokenpowerlaw" _); [done|].
  reflexivity.
Qed.

(** The [except] block logs twice and runs the branch of the name. *)
Lemma tier2_dispatch (self : Mass) (s : state E) :
  tier2 E self s =
  run_branch E (tier2_branch (mass_model self)) self
    (State E (samples E s) (random E s) (log E s ++ fallback_log self)).
Proof.
  unfold tier2, tier2_branch, fallback_log.
  run_with idtac. rewrite <- app_assoc. cbn [app].
  destruct (str_in "uniformsecondary" _); [done|].
  destruct (str_in "doublegaussian" _); [done|].
  destruct (_ || _); [done|].
  destruct (str_in "dip" _); [done|].
  destruct (str_in "powerlaw" _); [done|].
  destruct (str_in "fixed" _); done.
Qed.

(** Which names the dispatch takes to three of the branches. *)
Lemma tier2_branch_doublegaussian (name : string) :
  tier2_branch name = B_doublegaussian
  ↔ str_in "doublegaussian" name = true ∧ str_in "uniformsecondary" name = false.
Proof.
  unfold tier2_branch.
  destruct (str_in "uniformsecondary" name), (str_in "doublegaussian" name),
    (str_in "lognormal" name), (str_in "loggaussian" name),
    (str_in "dip" name), (str_in "powerlaw" name), (str_in "fixed" name);
    cbn; intuition congruence.
Qed.

Lemma tier2_branch_dip (name : string) :
  tier2_branch name = B_dip
  ↔ str_in "dip" name = true ∧ str_in "uniformsecondary" name = false
    ∧ str_in "doublegaussian" name = false ∧ str_in "lognormal" name = false
    ∧ str_in "loggaussian" name = false.
Proof.
  unfold tier2_branch.
  destruct (str_in "uniformsecondary" name), (str_in "doublegaussian" name),
    (str_in "lognormal" name), (str_in "loggaussian" name),
    (str_in "dip" name), (str_in "powerlaw" name), (str_in "fixed" name);
    cbn; intuition congruence.
Qed.

Lemma tier2_branch_fixed (name : string) :
  tier2_branch name = B_fixed
  ↔ str_in "fixed" name = true ∧ str_in "uniformsecondary" name = false
    ∧ str_in "doublegaussian" name = false ∧ str_in "lognormal" name = false
    ∧ str_in "loggaussian" name = false ∧ str_in "dip" name = false
    ∧ str_in "powerlaw" name = false.
Proof.
  unfold tier2_branch.
  destruct (str_in "uniformsecondary" name), (str_in "doublegaussian" name),
    (str_in "lognormal" name), (str_in "loggaussian" name),
    (str_in "dip" name), (str_in "powerlaw" name), (str_in "fixed" name);
    cbn; intuition congruence.
Qed.

Lemma tier1_class_None (name : string) :
  tier1_class name = None
  ↔ str_in "powerlawpeak" name = false ∧ str_in "multipeak" name = false
    ∧ str_in "brokenpowerlaw" name = false.
Proof.
  unfold tier1_class.
  destruct (str_in "powerlawpeak" name), (str_in "multipeak" name),
    (str_in "brokenpowerlaw" name); intuition congruence.
Qed.

(** [sample] when the name is in no tier-1 model. *)
Lemma sample_body_tier2 (self : Mass) (s : state E) :
  tier1_class (mass_model self) = None →
  sample_body E self s =
  run_branch E (tier2_branch (mass_model self)) self
    (State E ∅ (random E s) (log E s ++ fallback_log self)).
Proof.
  intros H. unfold sample_body, try_except.
  rewrite tier1_unbound by done. by rewrite tier2_dispatch.
Qed.

Lemma sample_run (self : Mass) (g : RandomState E) (lg : list (level * string))
    (r : result ()) (s : state E) :
  sample_body E self (State E ∅ g lg) = (r, s) →
  sample E self g lg =
    (_ ← r; mret (generate_mass_parameters E (samples E s) true),
     random E s, log E s).
Proof. unfold sample. by intros ->. Qed.

(** *** The fixed model *)

Lemma fixed_run (self : Mass) (s : state E) (pm q : Qc) :
  parameters self !! "primary_mass" = Some pm →
  parameters self !! "mass_ratio" = Some q →
  tier2_fixed E self s =
    (inr (),
     State E
       (<[ "mass_2_source" :=
             replicate (number_of_samples self)
               (pm * (if bool_decide (q < 1) then q else 1 / q)) ]>
          (<[ "mass_1_source" := replicate (number_of_samples self) pm ]>
             (samples E s)))
       (random E s) (log E s)).
Proof.
  intros Hpm Hq. unfold tier2_fixed.
  run_with ltac:(unfold getitem; rewrite ?Hpm, ?Hq, ?lookup_insert_eq).
  by rewrite ones_times, fmap_replicate.
Qed.

Lemma fixed_factor (pm q : Qc) :
  pm * (if bool_decide (q < 1) then q else 1 / q)
  = if bool_decide (q ≤ 1) then pm * q else pm * (1 / q).
Proof.
  repeat case_bool_decide; try done.
  - exfalso. auto using Qclt_le_weak.
  - assert (q = 1) as -> by (apply Qcle_antisym; [done | by apply Qcnot_lt_le]).
    done.
Qed.

(** C3.  For the fixed model with [n] samples, [sample] sets
    [mass_1_source] to [primary_mass] repeated [n] times and every entry
    of [mass_2_source] to [primary_mass] times [mass_ratio] when the ratio
    does not exceed 1 and to [primary_mass] times its reciprocal when it
    does; the mapping it returns is what the conversion utility makes of
    these two.  With [primary_mass = 30] the entries of [mass_2_source]
    are 15 for [mass_ratio = 0.5] and for [mass_ratio = 2]. *)
Theorem fixed_model_masses (self : Mass) (g : RandomState E)
    (lg : list (level * string)) (pm q : Qc) :
  tier1_class (mass_model self) = None →
  tier2_branch (mass_model self) = B_fixed →
  parameters self !! "primary_mass" = Some pm →
  parameters self !! "mass_ratio" = Some q →
  let n := number_of_samples self in
  let m2 := if bool_decide (q ≤ 1) then pm * q else pm * (1 / q) in
  sample E self g lg =
    (inr (generate_mass_parameters E
            {[ "mass_1_source" := replicate n pm;
               "mass_2_source" := replicate n m2 ]} true),
     g, lg ++ fallback_log self)
  ∧ (pm = dec 30 1 → q = dec 1 2 → m2 = dec 15 1)
  ∧ (pm = dec 30 1 → q = dec 2 1 → m2 = dec 15 1).
Proof.
  intros H1 H2 Hpm Hq n m2. split.
  - erewrite sample_run; last first.
    { rewrite sample_body_tier2, H2 by done. cbn [run_branch].
      by apply fixed_run. }
    cbn [samples random log]. rewrite fixed_factor.
    rewrite insert_insert_ne by done. by rewrite insert_empty.
  - subst m2. split; intros -> ->; by apply Qc_is_canon.
Qed.

End Dispatch.

Lemma fixed_model_masses_witness :
  let self := {| mass_model := "fixed"; number_of_samples := 3;
                 parameters := Fixture.fixed_parameters (dec 2 1) |} in
  sample (Fixture.env false) self 0%nat [] =
    (inr (Fixture.add_total_mass
            {[ "mass_1_source" := replicate 3 (dec 30 1);
               "mass_2_source" :=
                 replicate 3
                   (if bool_decide (dec 2 1 ≤ 1) then dec 30 1 * dec 2 1
                    else dec 30 1 * (1 / dec 2 1)) ]} true),
     0%nat, [] ++ fallback_log self)
  ∧ (dec 30 1 = dec 30 1 → dec 2 1 = dec 1 2 →
     (if bool_decide (dec 2 1 ≤ 1) then dec 30 1 * dec 2 1
      else dec 30 1 * (1 / dec 2 1)) = dec 15 1)
  ∧ (dec 30 1 = dec 30 1 → dec 2 1 = dec 2 1 →
     (if bool_decide (dec 2 1 ≤ 1) then dec 30 1 * dec 2 1
      else dec 30 1 * (1 / dec 2 1)) = dec 15 1).
Proof.
  intros self.
  apply (fixed_model_masses (Fixture.env false) self 0%nat [] (dec 30 1) (dec 2 1));
    reflexivity.
Defined.

(** ** Rules for the postconditions of a run *)

Section Post.

Variable E : Externals.

Lemma post_bind {A B} (m : M E A) (f : A → M E B) Qe Q s :
  post E m Qe (λ x s', post E (f x) Qe Q s') s → post E (m ≫= f) Qe Q s.
Proof. unfold post. rewrite bind_run. by destruct (m s) as [[e|x] s']. Qed.

Lemma post_lift {A} (r : result A) Qe Q s :
  (∀ e, r = inl e → Qe e s) → (∀ x, r = inr x → Q x s) →
  post E (lift E r) Qe Q s.
Proof. unfold post, lift. destruct r; auto. Qed.

Lemma post_param (self : Mass) (key : string) Qe Q s :
  (∀ e, Qe e s) → (∀ x, parameters self !! key = Some x → Q x s) →
  post E (param E self key) Qe Q s.
Proof.
  intros He Hx. apply post_lift; [auto|]. unfold getitem.
  destruct (parameters self !! key); naive_solver.
Qed.

Lemma post_raise {A} (e : exn) Qe (Q : A → state E → Prop) s :
  Qe e s → post E (raise E e) Qe Q s.
Proof. done. Qed.

Lemma post_setitem (key : string) (val : list Qc) Qe Q s :
  Q () (State E (<[key := val]> (samples E s)) (random E s) (log E s)) →
  post E (setitem E key val) Qe Q s.
Proof. done. Qed.

Lemma post_getsample (key : string) Qe Q s :
  (∀ e, Qe e s) → (∀ x, samples E s !! key = Some x → Q x s) →
  post E (getsample E key) Qe Q s.
Proof.
  intros He Hx. unfold post, getsample, getitem.
  destruct (samples E s !! key); auto.
Qed.

Lemma post_construct (p : Prior) Qe Q s :
  (∀ e, Qe e s) → (prior_init E p = None → Q p s) →
  post E (construct E p) Qe Q s.
Proof. intros He Hp. unfold post, construct. destruct (prior_init E p); auto. Qed.

Lemma post_draw (p : Prior) (size : nat) Qe Q s :
  (∀ e g, Qe e (State E (samples E s) g (log E s))) →
  (∀ v g, prior_sample E p size (random E s) = (inr v, g) →
          Q v (State E (samples E s) g (log E s))) →
  post E (draw E p size) Qe Q s.
Proof.
  intros He Hv. unfold post, draw.
  destruct (prior_sample E p size (random E s)) as [[e|v] g]; auto.
Qed.

Lemma post_logging (lv : level) (msg : string) Qe Q s :
  Q () (State E (samples E s) (random E s) (log E s ++ [(lv, msg)])) →
  post E (logging E lv msg) Qe Q s.
Proof. done. Qed.

End Post.

Ltac post_step :=
  first
    [ apply post_bind
    | apply post_setitem
    | apply post_logging
    | apply post_raise
    | apply post_param; [intros ? | intros ? ?]
    | apply post_getsample; [intros ? | intros ? ?]
    | apply post_construct; [intros ? | intros ?]
    | apply post_draw; [intros ? ? | intros ? ? ?]
    | apply post_lift; [intros ? ? | intros ? ?] ];
  cbn [samples random log].

Ltac post_run := repeat post_step.

(** ** The [try] statement *)

Section TryExcept.

Variable E : Externals.

(** Only the first two statements of the [except] block write to the log. *)
Lemma tier1_log (self : Mass) (s : state E) :
  post E (tier1 E self) (λ _ s', log E s' = log E s)
    (λ _ s', log E s' = log E s) s.
Proof.
  unfold tier1.
  destruct (str_in "powerlawpeak" _); [|destruct (str_in "multipeak" _);
    [|destruct (str_in "brokenpowerlaw" _)]]; post_run; done.
Qed.

Lemma run_branch_log (b : branch) (self : Mass) (s : state E) :
  post E (run_branch E b self) (λ _ s', log E s' = log E s)
    (λ _ s', log E s' = log E s) s.
Proof.
  destruct b; cbn [run_branch];
    unfold tier2_uniformsecondary, tier2_doublegaussian, tier2_lognormal,
      tier2_dip, tier2_powerlaw, tier2_fixed, tier2_else;
    post_run; done.
Qed.

Lemma tier2_log (self : Mass) (s : state E) :
  log E (tier2 E self s).2 = log E s ++ fallback_log self.
Proof.
  rewrite tier2_dispatch.
  pose proof (run_branch_log (tier2_branch (mass_model self)) self
                (State E (samples E s) (random E s) (log E s ++ fallback_log self)))
    as H.
  unfold post in H. by destruct (run_branch _ _ _ _) as [[e|[]] s'].
Qed.

(** C7.  A name that matches no tier-1 model makes the [try] block raise;
    whatever the [try] block raises, [sample] does not raise it but runs
    the tier-2 dispatch on the same name from the state the [try] block
    left, after logging the warning; every exception that leaves the
    [try] statement was raised by the tier-2 dispatch, and its last branch
    raises the unrecognized-model error. *)
Theorem tier1_failure_falls_through (self : Mass) (s : state E) :
  let s0 := State E ∅ (random E s) (log E s) in
  (tier1_class (mass_model self) = None →
     tier1 E self s0 = (inl (UnboundLocalError "model"), s0))
  ∧ (∀ e s1, tier1 E self s0 = (inl e, s1) →
       sample_body E self s = tier2 E self s1
       ∧ log E (sample_body E self s).2 = log E s ++ fallback_log self)
  ∧ (∀ e s2, sample_body E self s = (inl e, s2) →
       ∃ e1 s1, tier1 E self s0 = (inl e1, s1) ∧ tier2 E self s1 = (inl e, s2))
  ∧ (∀ s1, tier2_branch (mass_model self) = B_else →
       (tier2 E self s1).1 = inl (ValueError (not_implemented self))).
Proof.
  intros s0. split; [|split; [|split]].
  - apply tier1_unbound.
  - intros e s1 H1.
    assert (sample_body E self s = tier2 E self s1) as Hb.
    { unfold sample_body, try_except. fold s0. by rewrite H1. }
    split; [done|]. rewrite Hb, tier2_log.
    pose proof (tier1_log self s0) as Hl. unfold post in Hl.
    rewrite H1 in Hl. by rewrite Hl.
  - intros e s2. unfold sample_body, try_except. fold s0.
    destruct (tier1 E self s0) as [[e1|[]] s1]; [|done].
    intros H2. by exists e1, s1.
  - intros s1 Hb. by rewrite tier2_dispatch, Hb.
Qed.






End TryExcept.

Lemma tier1_failure_falls_through_witness :
  let E := Fixture.env false in
  let self := {| mass_model := "notamodel"; number_of_samples := 2;
                 parameters := default_parameters |} in
  let s0 := State E ∅ 0%nat [] in
  tier1 E self s0 = (inl (UnboundLocalError "model"), s0)
  ∧ (sample_body E self s0 = tier2 E self s0
     ∧ log E (sample_body E self s0).2 = [] ++ fallback_log self)
  ∧ (∃ e1 s1, tier1 E self s0 = (inl e1, s1)
       ∧ tier2 E self s1
         = (inl (ValueError (not_implemented self)),
            State E ∅ 0%nat (fallback_log self)))
  ∧ (tier2 E self s0).1 = inl (ValueError (not_implemented self)).
Proof.
  intros E self s0.
  destruct (tier1_failure_falls_through E self s0) as (H1 & H2 & H3 & H4).
  split; [exact (H1 eq_refl)|].
  split; [exact (H2 (UnboundLocalError "model") s0 eq_refl)|].
  split; [exact (H3 _ _ eq_refl)|].
  exact (H4 s0 eq_refl).
Defined.




(** ** The unrecognized-model error *)

Section Unrecognized.

Variable E : Externals.

(** A name in neither tier makes [sample] raise the [ValueError]. *)
Lemma sample_unrecognized (self : Mass) (g : RandomState E)
    (lg : list (level * string)) :
  tier1_class (mass_model self) = None →
  tier2_branch (mass_model self) = B_else →
  sample E self g lg
  = (inl (ValueError (not_implemented self)), g, lg ++ fallback_log self).
Proof.
  intros H1 H2. erewrite sample_run; last first.
  { rewrite sample_body_tier2, H2 by done. reflexivity. }
  reflexivity.
Qed.

(** Its message starts with the (normalised) name of the model ... *)
Lemma not_implemented_names_model (self : Mass) :
  occurs (mass_model self) (not_implemented self).
Proof. by exists "", (" is not implemented in gwpopulation. Please choose from "
                       +:+ repr_list choices). Qed.

(** ... and ends with the list [choices]. *)
Lemma not_implemented_lists_choices (self : Mass) :
  occurs "['PowerLaw+Peak', 'MultiPeak', 'BrokenPowerLaw', 'UniformSecondary', 'DoubleGaussian', 'LogNormal', 'PowerLawDipBreak', 'PowerLaw']"
    (not_implemented self).
Proof.
  exists (mass_model self +:+ " is not implemented in gwpopulation. Please choose from "), "".
  unfold not_implemented. by rewrite !string_app_assoc.
Qed.

(** C1.  The name ["notamodel"] is in neither tier, and [sample] raises
    the [ValueError] with the message below, whatever the outside world
    does.  The message has the name and the eight entries of [choices];
    ["Fixed"] is not among them, although the dispatch has a branch for a
    name with ["fixed"]. *)
Theorem unrecognized_message_omits_Fixed (n : nat)
    (parameters : gmap string Qc) (g : RandomState E)
    (lg : list (level * string)) :
  let self := {| mass_model := "notamodel"; number_of_samples := n;
                 parameters := parameters |} in
  let msg := "notamodel is not implemented in gwpopulation. Please choose from ['PowerLaw+Peak', 'MultiPeak', 'BrokenPowerLaw', 'UniformSecondary', 'DoubleGaussian', 'LogNormal', 'PowerLawDipBreak', 'PowerLaw']" in
  sample E self g lg = (inl (ValueError msg), g, lg ++ fallback_log self)
  ∧ str_in "notamodel" msg = true
  ∧ str_in "Fixed" msg = false
  ∧ tier2_branch "fixed" = B_fixed.
Proof.
  intros self msg. split; [|done].
  by rewrite sample_unrecognized.
Qed.

End Unrecognized.

(** ** The parameters of the first tier *)

(** The mass-ratio parameters are the entries named [beta], [mmin] or
    [delta_m]. *)
Lemma tier1_mass_ratio_parameters_lookup (parameters : gmap string Qc)
    (k : string) (v : Qc) :
  tier1_mass_ratio_parameters parameters !! k = Some v
  ↔ parameters !! k = Some v ∧ k ∈ ["beta"; "mmin"; "delta_m"].
Proof. unfold tier1_mass_ratio_parameters. by rewrite map_lookup_filter_Some. Qed.

(** The mass parameters are the entries whose name is not a part of the
    string ["beta"]. *)
Lemma tier1_mass_parameters_lookup (parameters : gmap string Qc)
    (k : string) (v : Qc) :
  tier1_mass_parameters parameters !! k = Some v
  ↔ parameters !! k = Some v ∧ str_in k "beta" = false.
Proof.
  unfold tier1_mass_parameters. rewrite map_lookup_filter_Some.
  cbn [fst]. by rewrite Is_true_true, not_true_iff_false.
Qed.

(** C2.  With an entry [eta] next to the default parameters, the mass
    parameters of the first tier lack [eta], which is not [beta]: they
    are the default parameters without [beta].  The mass-ratio parameters
    are [beta], [mmin] and [delta_m]. *)
Theorem tier1_mass_parameters_drop_eta :
  let parameters := <[ "eta" := dec 2 1 ]> default_parameters in
  parameters !! "eta" = Some (dec 2 1)
  ∧ "eta" ≠ "beta"
  ∧ tier1_mass_parameters parameters !! "eta" = None
  ∧ tier1_mass_parameters parameters = delete "beta" default_parameters
  ∧ tier1_mass_ratio_parameters parameters
    = {[ "beta" := dec 76 100; "mmin" := dec 489 100; "delta_m" := dec 523 100 ]}.
Proof. repeat split; (done || by vm_compute). Qed.

(** ** The double-Gaussian model *)

Section DoubleGaussian.

Variable E : Externals.

(** The array handed to [Interped] is the mixture density at every point
    of the grid. *)
Lemma mixture_array (p1 p2 : Prior) (bf : Qc) (mass : list Qc) :
  Np.zip_arr Qcplus
    ((λ p, p * bf) <$> (prior_prob E p1 <$> mass))
    ((λ p, p * (1 - bf)) <$> (prior_prob E p2 <$> mass))
  = (λ m, bf * prior_prob E p1 m + (1 - bf) * prior_prob E p2 m) <$> mass.
Proof.
  rewrite <- !list_fmap_compose, zip_arr_fmap.
  apply list_fmap_ext. intros _ m _. cbn. ring.
Qed.

(** The run of the branch when nothing raises. *)
Lemma doublegaussian_run (self : Mass) (s : state E)
    (mmin mmax mu_1 sigma_1 mu_2 sigma_2 breaking_fraction lo hi : Qc)
    (v1 v2 : list Qc) (g' : RandomState E) :
  parameters self !! "mmin" = Some mmin →
  parameters self !! "mmax" = Some mmax →
  parameters self !! "mu_1" = Some mu_1 →
  parameters self !! "sigma_1" = Some sigma_1 →
  parameters self !! "mu_2" = Some mu_2 →
  parameters self !! "sigma_2" = Some sigma_2 →
  parameters self !! "breaking_fraction" = Some breaking_fraction →
  prior_init E (TruncatedGaussian mu_1 sigma_1 mmin mmax) = None →
  prior_init E (TruncatedGaussian mu_2 sigma_2 mmin mmax) = None →
  Np.min (Np.linspace mmin mmax 5001) = inr lo →
  Np.max (Np.linspace mmin mmax 5001) = inr hi →
  prior_init E
    (Interped (Np.linspace mmin mmax 5001)
       (Spec.mixture_density E mmin mmax mu_1 sigma_1 mu_2 sigma_2
          breaking_fraction <$> Np.linspace mmin mmax 5001) lo hi None) = None →
  Spec.two_draws E
    (Interped (Np.linspace mmin mmax 5001)
       (Spec.mixture_density E mmin mmax mu_1 sigma_1 mu_2 sigma_2
          breaking_fraction <$> Np.linspace mmin mmax 5001) lo hi None)
    (number_of_samples self) (random E s) v1 v2 g' →
  tier2_doublegaussian E self s
  = (inr (),
     State E
       (<[ "mass_2_source" := v2 ]> (<[ "mass_1_source" := v1 ]> (samples E s)))
       g' (log E s)).
Proof.
  intros Hmmin Hmmax Hmu1 Hs1 Hmu2 Hs2 Hbf Hi1 Hi2.
  unfold tier2_doublegaussian.
  run_with ltac:(unfold getitem;
                 rewrite ?Hmmin, ?Hmmax, ?Hmu1, ?Hs1, ?Hmu2, ?Hs2, ?Hbf,
                   ?Hi1, ?Hi2).
  rewrite mixture_array.
  intros Hlo Hhi Hi (g1 & Hd1 & Hd2).
  rewrite Hlo. run_with ltac:(rewrite ?Hhi).
  unfold Spec.mixture_density in Hi, Hd1, Hd2. rewrite Hi.
  run_with ltac:(rewrite ?Hd1, ?Hd2).
  reflexivity.
Qed.

(** C5.  For the double-Gaussian model the grid is the 5001-point linear
    grid from [mmin] to [mmax]; the prior that is sampled is [Interped] on
    this grid with, at every grid value, [breaking_fraction] times the
    density of the Gaussian [mu_1], [sigma_1] truncated to [mmin]..[mmax]
    plus [1 - breaking_fraction] times that of the Gaussian [mu_2],
    [sigma_2] with the same truncation; [mass_1_source] and
    [mass_2_source] are two draws from this one prior, one after the
    other. *)
Theorem doublegaussian_mixture_sampler (self : Mass) (g : RandomState E)
    (lg : list (level * string))
    (mmin mmax mu_1 sigma_1 mu_2 sigma_2 breaking_fraction lo hi : Qc)
    (v1 v2 : list Qc) (g' : RandomState E) :
  let n := number_of_samples self in
  let mass := Np.linspace mmin mmax 5001 in
  let density :=
    Spec.mixture_density E mmin mmax mu_1 sigma_1 mu_2 sigma_2 breaking_fraction in
  let sampler := Interped mass (density <$> mass) lo hi None in
  tier1_class (mass_model self) = None →
  tier2_branch (mass_model self) = B_doublegaussian →
  parameters self !! "mmin" = Some mmin →
  parameters self !! "mmax" = Some mmax →
  parameters self !! "mu_1" = Some mu_1 →
  parameters self !! "sigma_1" = Some sigma_1 →
  parameters self !! "mu_2" = Some mu_2 →
  parameters self !! "sigma_2" = Some sigma_2 →
  parameters self !! "breaking_fraction" = Some breaking_fraction →
  prior_init E (TruncatedGaussian mu_1 sigma_1 mmin mmax) = None →
  prior_init E (TruncatedGaussian mu_2 sigma_2 mmin mmax) = None →
  Np.min mass = inr lo →
  Np.max mass = inr hi →
  prior_init E sampler = None →
  Spec.two_draws E sampler n g v1 v2 g' →
  length mass = 5001%nat
  ∧ (∀ i, (i < 5001)%nat →
       mass !! i = Some (Spec.grid_point mmin mmax 5001 i)
       ∧ (density <$> mass) !! i
         = Some (density (Spec.grid_point mmin mmax 5001 i)))
  ∧ Spec.grid_point mmin mmax 5001 0 = mmin
  ∧ Spec.grid_point mmin mmax 5001 5000 = mmax
  ∧ sample_body E self (State E ∅ g lg)
    = (inr (),
       State E {[ "mass_1_source" := v1; "mass_2_source" := v2 ]} g'
         (lg ++ fallback_log self)).
Proof.
  intros n mass density sampler Ht1 Ht2 Hmmin Hmmax Hmu1 Hs1 Hmu2 Hs2 Hbf
    Hi1 Hi2 Hlo Hhi Hi Hdraws.
  subst n mass density sampler.
  split; [apply linspace_length|].
  split.
  { intros i Hi'. rewrite list_lookup_fmap.
    rewrite linspace_lookup by exact Hi'. split; reflexivity. }
  split; [apply grid_point_first, Nat.ltb_lt; reflexivity|].
  split; [apply (grid_point_last mmin mmax 5001)|].
  rewrite sample_body_tier2 by exact Ht1. rewrite Ht2.
  cbn [run_branch random log].
  erewrite doublegaussian_run; try eassumption.
  cbn [samples random log].
  rewrite insert_insert_ne by discriminate. rewrite insert_empty. reflexivity.
Qed.

End DoubleGaussian.

Lemma fixture_grid_min :
  Np.min (Np.linspace (dec 1 1) (dec 11 1) 5001) = inr (dec 1 1).
Proof. vm_compute. f_equal; try by apply Qc_is_canon. Qed.

Lemma fixture_grid_max :
  Np.max (Np.linspace (dec 1 1) (dec 11 1) 5001) = inr (dec 11 1).
Proof. vm_compute. f_equal; try by apply Qc_is_canon. Qed.

Lemma doublegaussian_mixture_sampler_witness :
  let E := Fixture.env false in
  let self := {| mass_model := "doublegaussian"; number_of_samples := 2;
                 parameters := Fixture.doublegaussian_parameters |} in
  sample_body E self (State E ∅ 0%nat [])
  = (inr (),
     State E
       {[ "mass_1_source" := replicate 2 (dec 1 1);
          "mass_2_source" := replicate 2 (dec 1 1) ]}
       2%nat ([] ++ fallback_log self)).
Proof.
  intros E self.
  refine (proj2 (proj2 (proj2 (proj2
    (doublegaussian_mixture_sampler E self 0%nat []
       (dec 1 1) (dec 11 1) (dec 3 1) (dec 1 1) (dec 8 1) (dec 1 1) (dec 1 4)
       (dec 1 1) (dec 11 1) (replicate 2 (dec 1 1)) (replicate 2 (dec 1 1))
       2%nat eq_refl eq_refl eq_refl eq_refl eq_refl eq_refl eq_refl eq_refl
       eq_refl eq_refl eq_refl fixture_grid_min fixture_grid_max eq_refl _))))).
  exists 1%nat. split; reflexivity.
Defined.

(** ** The dip model *)

Section Dip.

Variable E : Externals.

(** The two masked assignments build the combined density of the
    specification at every point of the grid. *)
Lemma dip_array (d : Spec.dip_parameters) (mass : list Qc) (f1 f2 : Qc → Qc) :
  f1 = prior_prob E (PowerLaw (Spec.d_alpha_1 d) (Spec.d_mmin d) (Spec.d_gamma_high d)) →
  f2 = prior_prob E (PowerLaw (Spec.d_alpha_2 d) (Spec.d_mmin d) (Spec.d_gamma_high d)) →
  let gh := Spec.d_gamma_high d in
  let notch := Spec.notch E (Spec.d_A d) (Spec.d_gamma_low d) (Spec.d_eta_low d)
                 (Spec.d_gamma_high d) (Spec.d_eta_high d) in
  let lowpass := Spec.lowpass E (Spec.d_mmax d) (Spec.d_n d) in
  let below := Np.select mass (Np.le_mask mass gh) in
  let above := Np.select mass (Np.gt_mask mass gh) in
  Np.assign
    (Np.assign (Np.zeros_like mass) (Np.le_mask mass gh)
       (Np.zip_arr Qcmult (Np.zip_arr Qcmult (f1 <$> below) (notch <$> below))
          (lowpass <$> below)))
    (Np.gt_mask mass gh)
    (Np.zip_arr Qcmult (Np.zip_arr Qcmult (f2 <$> above) (notch <$> above))
       (lowpass <$> above))
  = Spec.dip_density E d <$> mass.
Proof.
  intros -> -> gh notch lowpass below above. subst below above.
  rewrite !zip_arr_fmap. unfold Np.le_mask, Np.gt_mask, Np.zeros_like.
  rewrite (assign_select (λ v, bool_decide (v ≤ gh)) (λ _, 0)).
  rewrite (assign_select (λ v, bool_decide (gh < v))).
  apply list_fmap_ext. intros _ m _. unfold Spec.dip_density. fold gh.
  repeat case_bool_decide; try reflexivity.
  - exfalso. eapply Qclt_not_le; eassumption.
  - exfalso. auto using Qcnot_lt_le.
Qed.

(** The run of the branch when nothing raises. *)
Lemma dip_run (self : Mass) (s : state E) (d : Spec.dip_parameters)
    (lo hi : Qc) (v1 v2 : list Qc) (g' : RandomState E) :
  Spec.holds_dip (parameters self) d →
  prior_init E (PowerLaw (Spec.d_alpha_1 d) (Spec.d_mmin d) (Spec.d_gamma_high d))
    = None →
  prior_init E (PowerLaw (Spec.d_alpha_2 d) (Spec.d_mmin d) (Spec.d_gamma_high d))
    = None →
  Np.min (Np.linspace (Spec.d_mmin d) (Spec.d_mmax d) 5001) = inr lo →
  Np.max (Np.linspace (Spec.d_mmin d) (Spec.d_mmax d) 5001) = inr hi →
  prior_init E
    (Interped (Np.linspace (Spec.d_mmin d) (Spec.d_mmax d) 5001)
       (Spec.dip_density E d <$> Np.linspace (Spec.d_mmin d) (Spec.d_mmax d) 5001)
       lo hi None) = None →
  Spec.two_draws E
    (Interped (Np.linspace (Spec.d_mmin d) (Spec.d_mmax d) 5001)
       (Spec.dip_density E d <$> Np.linspace (Spec.d_mmin d) (Spec.d_mmax d) 5001)
       lo hi None)
    (number_of_samples self) (random E s) v1 v2 g' →
  tier2_dip E self s
  = (inr (),
     State E
       (<[ "mass_2_source" := v2 ]> (<[ "mass_1_source" := v1 ]> (samples E s)))
       g' (log E s)).
Proof.
  intros (HA & Hgl & Hel & Hgh & Heh & Hmmin & Hmmax & Hn & Ha1 & Ha2) Hi1 Hi2.
  pose proof (λ val, notch_filter_fmap E val _ _ _ _ _ _ HA Hgl Hel Hgh Heh)
    as Hnotch.
  pose proof (λ val, low_pass_filter_fmap E val _ _ _ Hmmax Hn) as Hlow.
  unfold tier2_dip.
  run_with ltac:(rewrite ?Hmmin, ?Hmmax, ?Ha1, ?Ha2, ?Hgh, ?Hi1, ?Hi2,
                   ?Hnotch, ?Hlow).
  rewrite (dip_array d _ _ _ eq_refl eq_refl).
  intros Hlo Hhi Hi (g1 & Hd1 & Hd2).
  rewrite Hlo. run_with ltac:(rewrite ?Hhi).
  rewrite Hi.
  run_with ltac:(rewrite ?Hd1, ?Hd2).
  reflexivity.
Qed.


(** C9.  The power law of the upper segment has the maximum [gamma_high]
    and is evaluated above it.  When a power-law density is zero above
    its maximum, then for parameters with [gamma_high < mmax] the
    combined density that is handed to [Interped] is zero at every grid
    point above [gamma_high]; the last grid point, [mmax], is one of
    them; so a grid point with a density other than zero is at or below
    [gamma_high], and between [mmin] and [gamma_high] when the grid
    ascends. *)
Theorem dip_density_zero_above_gamma_high (self : Mass) (g : RandomState E)
    (lg : list (level * string)) (d : Spec.dip_parameters) (lo hi : Qc)
    (v1 v2 : list Qc) (g' : RandomState E) :
  let n := number_of_samples self in
  let mmin := Spec.d_mmin d in
  let mmax := Spec.d_mmax d in
  let gamma_high := Spec.d_gamma_high d in
  let mass := Np.linspace mmin mmax 5001 in
  let prob := Spec.dip_density E d <$> mass in
  let sampler := Interped mass prob lo hi None in
  (∀ alpha minimum maximum v,
     maximum < v → prior_prob E (PowerLaw alpha minimum maximum) v = 0) →
  gamma_high < mmax →
  tier1_class (mass_model self) = None →
  tier2_branch (mass_model self) = B_dip →
  Spec.holds_dip (parameters self) d →
  prior_init E (PowerLaw (Spec.d_alpha_1 d) mmin gamma_high) = None →
  prior_init E (PowerLaw (Spec.d_alpha_2 d) mmin gamma_high) = None →
  Np.min mass = inr lo →
  Np.max mass = inr hi →
  prior_init E sampler = None →
  Spec.two_draws E sampler n g v1 v2 g' →
  sample_body E self (State E ∅ g lg)
    = (inr (),
       State E {[ "mass_1_source" := v1; "mass_2_source" := v2 ]} g'
         (lg ++ fallback_log self))
  ∧ (∀ i m, mass !! i = Some m → gamma_high < m → prob !! i = Some 0)
  ∧ (mass !! 5000%nat = Some mmax ∧ prob !! 5000%nat = Some 0)
  ∧ (∀ i m p, mass !! i = Some m → prob !! i = Some p → p ≠ 0 →
       m ≤ gamma_high)
  ∧ (mmin ≤ mmax →
     ∀ i m p, mass !! i = Some m → prob !! i = Some p → p ≠ 0 →
       mmin ≤ m ∧ m ≤ gamma_high).
Proof.
  intros n mmin mmax gamma_high mass prob sampler
    Hzero Hgh Ht1 Ht2 Hd Hi1 Hi2 Hlo Hhi Hi Hdraws.
  subst n mmin mmax gamma_high mass prob sampler.
  assert (∀ m, Spec.d_gamma_high d < m → Spec.dip_density E d m = 0) as Hab.
  { intros m Hm. unfold Spec.dip_density.
    rewrite bool_decide_eq_false_2.
    - rewrite Hzero by exact Hm. ring.
    - intros Hle. eapply Qclt_not_le; eassumption. }
  assert (Np.linspace (Spec.d_mmin d) (Spec.d_mmax d) 5001 !! 5000%nat
          = Some (Spec.d_mmax d)) as Hlast.
  { rewrite linspace_lookup by (apply Nat.ltb_lt; reflexivity).
    f_equal; try apply (grid_point_last _ _ 5001). }
  split.
  { rewrite sample_body_tier2 by exact Ht1. rewrite Ht2.
    cbn [run_branch random log].
    erewrite dip_run; try eassumption.
    cbn [samples random log].
    rewrite insert_insert_ne by discriminate. rewrite insert_empty.
    reflexivity. }
  split.
  { intros i m Hm Hgt. rewrite list_lookup_fmap, Hm. cbn [fmap option_fmap option_map].
    f_equal. apply Hab, Hgt. }
  split.
  { split; [exact Hlast|]. rewrite list_lookup_fmap, Hlast.
    cbn [fmap option_fmap option_map]. f_equal. apply Hab, Hgh. }
  assert (∀ i m p,
            Np.linspace (Spec.d_mmin d) (Spec.d_mmax d) 5001 !! i = Some m →
            (Spec.dip_density E d
               <$> Np.linspace (Spec.d_mmin d) (Spec.d_mmax d) 5001) !! i = Some p →
            p ≠ 0 → m ≤ Spec.d_gamma_high d) as Hsupp.
  { intros i m p Hm Hp Hne. rewrite list_lookup_fmap, Hm in Hp.
    injection Hp as <-. apply Qcnot_lt_le. intros Hgt. apply Hne, Hab, Hgt. }
  split; [exact Hsupp|].
  intros Hord i m p Hm Hp Hne. split.
  - eapply linspace_ge_start; eassumption.
  - eapply Hsupp; eassumption.
Qed.

End Dip.

Lemma fixture_holds_dip :
  Spec.holds_dip Fixture.dip_parameters Fixture.dip_values.
Proof. repeat split. Qed.

Lemma fixture_powerlaw_zero (installed : bool) (alpha minimum maximum v : Qc) :
  maximum < v →
  prior_prob (Fixture.env installed) (PowerLaw alpha minimum maximum) v = 0.
Proof.
  intros Hv. cbn. unfold Fixture.box.
  rewrite (bool_decide_eq_false_2 (v ≤ maximum)).
  - by rewrite andb_false_r.
  - intros Hle. eapply Qclt_not_le; eassumption.
Qed.



Lemma dip_density_zero_above_gamma_high_witness :
  let E := Fixture.env false in
  let mass := Np.linspace (dec 1 1) (dec 11 1) 5001 in
  let prob := Spec.dip_density E Fixture.dip_values <$> mass in
  mass !! 5000%nat = Some (dec 11 1) ∧ prob !! 5000%nat = Some 0.
Proof.
  intros E mass prob.
  refine (proj1 (proj2 (proj2
    (dip_density_zero_above_gamma_high E
       {| mass_model := "powerlawdipbreak"; number_of_samples := 2;
          parameters := Fixture.dip_parameters |}
       0%nat [] Fixture.dip_values
       (dec 1 1) (dec 11 1) (replicate 2 (dec 1 1)) (replicate 2 (dec 1 1))
       2%nat (fixture_powerlaw_zero false) eq_refl eq_refl eq_refl
       fixture_holds_dip eq_refl eq_refl
       fixture_grid_min fixture_grid_max eq_refl _)))).
  exists 1%nat. split; reflexivity.
Defined.

(** ** The fallback of the first tier *)

Section Fallback.

Variable E : Externals.

(** What a failed [try] block leaves in [samples]: nothing, or the
    primary masses it drew before it raised. *)
Lemma tier1_leaves (self : Mass) (g : RandomState E) (lg : list (level * string)) :
  post E (tier1 E self)
    (λ _ s', samples E s' = ∅ ∨ ∃ v, samples E s' = <[ "mass_1_source" := v ]> ∅)
    (λ _ _, True) (State E ∅ g lg).
Proof.
  unfold tier1.
  destruct (str_in "powerlawpeak" _); [|destruct (str_in "multipeak" _);
    [|destruct (str_in "brokenpowerlaw" _)]]; post_run;
    first [exact I | by left | right; by eexists].
Qed.

Lemma powerlaw_run (self : Mass) (s : state E) (alpha mmin mmax : Qc)
    (v1 v2 : list Qc) (g' : RandomState E) :
  parameters self !! "alpha" = Some alpha →
  parameters self !! "mmin" = Some mmin →
  parameters self !! "mmax" = Some mmax →
  prior_init E (PowerLaw alpha mmin mmax) = None →
  Spec.two_draws E (PowerLaw alpha mmin mmax) (number_of_samples self)
    (random E s) v1 v2 g' →
  tier2_powerlaw E self s
  = (inr (),
     State E
       (<[ "mass_2_source" := v2 ]> (<[ "mass_1_source" := v1 ]> (samples E s)))
       g' (log E s)).
Proof.
  intros Ha Hmmin Hmmax Hi (g1 & Hd1 & Hd2). unfold tier2_powerlaw.
  run_with ltac:(rewrite ?Ha, ?Hmmin, ?Hmmax, ?Hi, ?Hd1, ?Hd2).
  reflexivity.
Qed.

Lemma powerlaw_in_tier1_names (name : string) :
  str_in "powerlawpeak" name = true ∨ str_in "brokenpowerlaw" name = true →
  str_in "powerlaw" name = true.
Proof.
  intros [H|H]; (eapply str_in_trans; [|exact H]); reflexivity.
Qed.

(** C10, as amended.  A name with [powerlawpeak] or [brokenpowerlaw] has
    [powerlaw] in it, so when its [try] block raises, the dispatch of the
    [except] block takes one of the branches down to the power-law one and
    not the last, which raises the unrecognized-model error.  When the
    name has none of [uniformsecondary], [doublegaussian], [lognormal],
    [loggaussian] and [dip], the branch is the power-law one: with
    [alpha], [mmin] and [mmax] in the parameters, both masses are draws,
    one after the other, from the power law with exponent [alpha] on
    [mmin]..[mmax]. *)
Theorem powerlaw_fallback (self : Mass) (g : RandomState E)
    (lg : list (level * string)) (e : exn) (s1 : state E) :
  let name := mass_model self in
  str_in "powerlawpeak" name = true ∨ str_in "brokenpowerlaw" name = true →
  tier1 E self (State E ∅ g lg) = (inl e, s1) →
  tier2_branch name ∈
    [B_uniformsecondary; B_doublegaussian; B_lognormal; B_dip; B_powerlaw]
  ∧ sample_body E self (State E ∅ g lg)
    = run_branch E (tier2_branch name) self
        (State E (samples E s1) (random E s1) (lg ++ fallback_log self))
  ∧ (str_in "uniformsecondary" name = false →
     str_in "doublegaussian" name = false →
     str_in "lognormal" name = false →
     str_in "loggaussian" name = false →
     str_in "dip" name = false →
     tier2_branch name = B_powerlaw
     ∧ ∀ alpha mmin mmax v1 v2 g',
         parameters self !! "alpha" = Some alpha →
         parameters self !! "mmin" = Some mmin →
         parameters self !! "mmax" = Some mmax →
         prior_init E (PowerLaw alpha mmin mmax) = None →
         Spec.two_draws E (PowerLaw alpha mmin mmax) (number_of_samples self)
           (random E s1) v1 v2 g' →
         sample_body E self (State E ∅ g lg)
         = (inr (),
            State E {[ "mass_1_source" := v1; "mass_2_source" := v2 ]} g'
              (lg ++ fallback_log self))).
Proof.
  intros name Hname H1.
  pose proof (powerlaw_in_tier1_names name Hname) as Hpl.
  assert (sample_body E self (State E ∅ g lg)
          = run_branch E (tier2_branch name) self
              (State E (samples E s1) (random E s1) (lg ++ fallback_log self)))
    as Hbody.
  { unfold sample_body, try_except. cbn [random log]. rewrite H1.
    rewrite tier2_dispatch.
    pose proof (tier1_log E self (State E ∅ g lg)) as Hl. unfold post in Hl.
    rewrite H1 in Hl. cbn [log] in Hl. by rewrite Hl. }
  split.
  { unfold tier2_branch. rewrite Hpl.
    destruct (str_in "uniformsecondary" name); [repeat constructor|].
    destruct (str_in "doublegaussian" name); [repeat constructor|].
    destruct (_ || _); [repeat constructor|].
    destruct (str_in "dip" name); repeat constructor. }
  split; [exact Hbody|].
  intros Hus Hdg Hln Hlg Hdip.
  assert (tier2_branch name = B_powerlaw) as Hb.
  { unfold tier2_branch. by rewrite Hus, Hdg, Hln, Hlg, Hdip, Hpl. }
  split; [exact Hb|].
  intros alpha mmin mmax v1 v2 g' Ha Hmmin Hmmax Hi Hdraws.
  rewrite Hbody, Hb. cbn [run_branch].
  erewrite powerlaw_run; try eassumption. cbn [samples random log].
  pose proof (tier1_leaves self g lg) as Hleft. unfold post in Hleft.
  rewrite H1 in Hleft. destruct Hleft as [->|[v ->]].
  - rewrite insert_insert_ne by discriminate. by rewrite insert_empty.
  - rewrite insert_insert_eq.
    rewrite insert_insert_ne by discriminate. by rewrite insert_empty.
Qed.

End Fallback.

(** C10, as stated, fails for [multipeak]: without gwpopulation the
    construction of the first tier raises, the name has none of the
    names of the second tier in it, and [sample] raises the
    unrecognized-model error. *)
Lemma multipeak_fallback_is_unrecognized :
  let E := Fixture.env false in
  let self := {| mass_model := "multipeak"; number_of_samples := 2;
                 parameters := default_parameters |} in
  str_in "multipeak" (mass_model self) = true
  ∧ (∃ e, tier1 E self (State E ∅ 0%nat []) = (inl e, State E ∅ 0%nat []))
  ∧ tier2_branch (mass_model self) = B_else
  ∧ sample E self 0%nat []
    = (inl (ValueError "multipeak is not implemented in gwpopulation. Please choose from ['PowerLaw+Peak', 'MultiPeak', 'BrokenPowerLaw', 'UniformSecondary', 'DoubleGaussian', 'LogNormal', 'PowerLawDipBreak', 'PowerLaw']"),
       0%nat, fallback_log self).
Proof.
  intros E self. split; [reflexivity|]. split; [by eexists|].
  split; reflexivity.
Qed.

Lemma powerlaw_fallback_witness :
  let E := Fixture.env false in
  let self := {| mass_model := "powerlawpeak"; number_of_samples := 2;
                 parameters := default_parameters |} in
  sample_body E self (State E ∅ 0%nat [])
  = (inr (),
     State E
       {[ "mass_1_source" := replicate 2 (dec 489 100);
          "mass_2_source" := replicate 2 (dec 489 100) ]}
       2%nat ([] ++ fallback_log self)).
Proof.
  intros E self.
  refine (proj2 (proj2 (proj2
    (powerlaw_fallback E self 0%nat []
       (LibraryError "ModuleNotFoundError: No module named 'gwpopulation'")
       (State E ∅ 0%nat []) (or_introl eq_refl) eq_refl))
    eq_refl eq_refl eq_refl eq_refl eq_refl)
    (dec 337 100) (dec 489 100) (dec 8881 100)
    (replicate 2 (dec 489 100)) (replicate 2 (dec 489 100)) 2%nat
    eq_refl eq_refl eq_refl eq_refl _).
  exists 1%nat. split; reflexivity.
Defined.

(** ** The first tier with gwpopulation at hand *)

(** With the stand-in for gwpopulation the [try] block of a
    [powerlawpeak] model does not raise: nothing is logged, two draws are
    taken, and the mapping has the primary masses and the mass ratios. *)
Example tier1_runs :
  let E := Fixture.env true in
  let self := Mass_init E "PowerLaw+Peak" 2 default_parameters in
  mass_model self = "powerlawpeak"
  ∧ sample_body E self (State E ∅ 0%nat [])
    = (inr (),
       State E
         {[ "mass_1_source" := replicate 2 (dec 2 1);
            "mass_ratio" := replicate 2 (dec 1 10) ]}
         2%nat []).
Proof. split; reflexivity. Qed.

(** * Further properties of the module *)

(** ** The filters and their parameters *)

Section FilterKeys.

Variable E : Externals.

(** [notch_filter] reads [A], [gamma_low], [eta_low], [gamma_high] and
    [eta_high] in this order: it raises [KeyError] for the first of them
    that the mapping lacks, and with all five it returns an array as long
    as its argument, the empty array for the empty array. *)
Theorem notch_filter_result (val : list Qc) (parameters : gmap string Qc) :
  match first_missing notch_keys parameters with
  | Some k => notch_filter E val parameters = inl (KeyError k)
  | None => ∃ out, notch_filter E val parameters = inr out
                   ∧ length out = length val
  end.
Proof.
  unfold first_missing, notch_keys, notch_filter, getitem.
  rewrite !filter_cons, filter_nil.
  destruct (parameters !! "A") eqn:HA; cbn; [|done].
  destruct (parameters !! "gamma_low") eqn:Hgl; cbn; [|done].
  destruct (parameters !! "eta_low") eqn:Hel; cbn; [|done].
  destruct (parameters !! "gamma_high") eqn:Hgh; cbn; [|done].
  destruct (parameters !! "eta_high") eqn:Heh; cbn; [|done].
  eexists. split; [reflexivity|].
  by rewrite zip_arr_fmap, !length_fmap.
Qed.

(** [low_pass_filter] reads [mmax] and then [n]: it raises [KeyError] for
    the first of them that the mapping lacks, and with both it returns an
    array as long as its argument. *)
Theorem low_pass_filter_result (val : list Qc) (parameters : gmap string Qc) :
  match first_missing low_pass_keys parameters with
  | Some k => low_pass_filter E val parameters = inl (KeyError k)
  | None => ∃ out, low_pass_filter E val parameters = inr out
                   ∧ length out = length val
  end.
Proof.
  unfold first_missing, low_pass_keys, low_pass_filter, getitem.
  rewrite !filter_cons, filter_nil.
  destruct (parameters !! "mmax") eqn:Hmmax; cbn; [|done].
  destruct (parameters !! "n") eqn:Hn; cbn; [|done].
  eexists. split; [reflexivity|]. by rewrite length_fmap.
Qed.

(** With [A = 0] the notch filter is 1 everywhere, for values above zero,
    a [gamma_low] that is not negative and a [gamma_high] above zero: no
    divisor is zero there, a power of a base that is not negative being
    not negative. *)
Theorem notch_filter_without_depth (val : list Qc) (parameters : gmap string Qc)
    (gamma_low eta_low gamma_high eta_high : Qc) :
  (∀ x y, 0 ≤ x → 0 ≤ power E x y) →
  parameters !! "A" = Some 0 →
  parameters !! "gamma_low" = Some gamma_low →
  parameters !! "eta_low" = Some eta_low →
  parameters !! "gamma_high" = Some gamma_high →
  parameters !! "eta_high" = Some eta_high →
  0 ≤ gamma_low →
  0 < gamma_high →
  Forall (λ v, 0 < v) val →
  notch_filter E val parameters = inr (replicate (length val) 1)
  ∧ Forall (λ v, v ≠ 0
                 ∧ (1 + power E (gamma_low / v) eta_low)
                   * (1 + power E (v / gamma_high) eta_high) ≠ 0) val.
Proof.
  intros Hpow HA Hgl Hel Hgh Heh Hlow Hhigh Hval.
  assert (∀ v, 0 < v →
            0 < 1 + power E (gamma_low / v) eta_low
            ∧ 0 < 1 + power E (v / gamma_high) eta_high) as Hfac.
  { intros v Hv.
    assert (∀ p, 0 ≤ p → 0 < 1 + p) as H1
      by (intros p Hp; by apply Qcplus_pos_nonneg).
    split; apply H1, Hpow, Qcmult_nonneg.
    - exact Hlow.
    - by apply Qcinv_nonneg, Qclt_le_weak.
    - by apply Qclt_le_weak.
    - by apply Qcinv_nonneg, Qclt_le_weak. }
  split.
  - rewrite (notch_filter_fmap E val parameters 0 gamma_low eta_low gamma_high
               eta_high) by assumption.
    f_equal. apply const_fmap. intros i v Hv.
    assert (0 < v) as Hpos by (by eapply Forall_lookup_1 in Hval).
    destruct (Hfac v Hpos) as [Ha Hb].
    unfold Spec.notch. field.
    split; apply not_symmetry, Qclt_not_eq; assumption.
  - eapply Forall_impl; [exact Hval|]. intros v Hv.
    destruct (Hfac v Hv) as [Ha Hb]. split.
    + by apply not_symmetry, Qclt_not_eq.
    + intros H0. apply Qcmult_integral in H0 as [H0|H0].
      * rewrite H0 in Ha. by apply (Qclt_not_eq 0 0).
      * rewrite H0 in Hb. by apply (Qclt_not_eq 0 0).
Qed.

End FilterKeys.

Lemma fixture_power_nonneg (installed : bool) (x y : Qc) :
  0 ≤ x → 0 ≤ power (Fixture.env installed) x y.
Proof.
  intros Hx. cbn. unfold Fixture.whole_power.
  induction (Z.to_nat (Qnum (this y))) as [|n IH]; cbn [Qcpower].
  - discriminate.
  - by apply Qcmult_nonneg.
Qed.

Lemma notch_filter_without_depth_witness :
  notch_filter (Fixture.env false) [dec 2 1; dec 6 1]
    (<[ "A" := 0 ]> Fixture.dip_parameters)
  = inr (replicate 2 1).
Proof.
  refine (proj1
    (notch_filter_without_depth (Fixture.env false) [dec 2 1; dec 6 1]
       (<[ "A" := 0 ]> Fixture.dip_parameters)
       (dec 2 1) (dec 2 1) (dec 6 1) (dec 2 1)
       (fixture_power_nonneg false) eq_refl eq_refl eq_refl eq_refl eq_refl
       _ eq_refl _)).
  - discriminate.
  - repeat constructor.
Defined.

(** ** The models that no earlier statement covers *)

Section Models.

Variable E : Externals.

(** The first tier.  When the name has one of the three tier-1 names, the
    class is constructed with [normalization_shape=(1000, 1000)], the
    density of the primary mass gets the parameters but those whose name
    is part of ["beta"], the density of the mass ratio gets [beta], [mmin]
    and [delta_m], and nothing raises, then [mass_1_source] and
    [mass_ratio] are draws from the two interpolated priors on the grids
    of the model, bounded by the least and greatest grid values; the
    [except] block does not run and nothing is logged. *)
Theorem tier1_success (self : Mass) (g : RandomState E)
    (lg : list (level * string)) (c : model_class) (model : Model E)
    (prob_mass_1 prob_mass_ratio : list Qc) (lo1 hi1 loq hiq : Qc)
    (v1 v2 : list Qc) (g1 g' : RandomState E) :
  let n := number_of_samples self in
  let mass1 := m1s E model in
  let mass_ratio := qs E model in
  let primary_mass_prior :=
    Interped mass1 prob_mass_1 lo1 hi1 (Some "mass_1_source") in
  let mass_ratio_prior :=
    Interped mass_ratio prob_mass_ratio loq hiq (Some "mass_ratio") in
  tier1_class (mass_model self) = Some c →
  new_model E c (1000, 1000)%nat = inr model →
  p_m1 E model {[ "mass_1" := mass1 ]} (tier1_mass_parameters (parameters self))
    = inr prob_mass_1 →
  p_q E model {[ "mass_ratio" := mass_ratio; "mass_1" := mass1 ]}
    (tier1_mass_ratio_parameters (parameters self)) = inr prob_mass_ratio →
  Np.min mass1 = inr lo1 →
  Np.max mass1 = inr hi1 →
  Np.min mass_ratio = inr loq →
  Np.max mass_ratio = inr hiq →
  prior_init E primary_mass_prior = None →
  prior_init E mass_ratio_prior = None →
  prior_sample E primary_mass_prior n g = (inr v1, g1) →
  prior_sample E mass_ratio_prior n g1 = (inr v2, g') →
  sample E self g lg
  = (inr (generate_mass_parameters E
            {[ "mass_1_source" := v1; "mass_ratio" := v2 ]} true), g', lg).
Proof.
  intros n mass1 mass_ratio primary_mass_prior mass_ratio_prior
    Hc Hnew Hp1 Hpq Hlo1 Hhi1 Hloq Hhiq Hi1 Hiq Hd1 Hd2.
  subst n mass1 mass_ratio primary_mass_prior mass_ratio_prior.
  assert (tier1 E self (State E ∅ g lg)
          = (inr (),
             State E (<[ "mass_ratio" := v2 ]> (<[ "mass_1_source" := v1 ]> ∅))
               g' lg)) as Ht.
  { unfold tier1. unfold tier1_class in Hc.
    destruct (str_in "powerlawpeak" _); [|destruct (str_in "multipeak" _);
      [|destruct (str_in "brokenpowerlaw" _); [|discriminate Hc]]];
      injection Hc as <-;
      run_with ltac:(rewrite ?Hnew, ?Hp1, ?Hpq, ?Hlo1, ?Hhi1, ?Hloq, ?Hhiq,
                       ?Hi1, ?Hiq, ?Hd1, ?Hd2);
      reflexivity. }
  erewrite sample_run; last first.
  { unfold sample_body, try_except. cbn [random log]. rewrite Ht. reflexivity. }
  cbn [samples random log mbind result_bind mret result_ret].
  rewrite insert_insert_ne by discriminate. rewrite insert_empty. reflexivity.
Qed.

(** The uniform-secondary model.  The primary mass is drawn from the
    interpolated single-peak density, which gets the parameters but
    [beta] and the two bounds of the secondary mass; the secondary mass is
    a draw, taken after it, from the uniform prior between
    [minimum_secondary_mass] and [maximum_secondary_mass]. *)
Theorem uniformsecondary_model (self : Mass) (g : RandomState E)
    (lg : list (level * string)) (model : Model E) (prob_mass_1 : list Qc)
    (lo hi minimum maximum : Qc) (v1 v2 : list Qc) (g1 g' : RandomState E) :
  let n := number_of_samples self in
  let mass1 := m1s E model in
  let mass_parameters :=
    filter (λ kv : string * Qc,
              kv.1 ∉ ["beta"; "minimum_secondary_mass"; "maximum_secondary_mass"])
           (parameters self) in
  let primary_mass_prior :=
    Interped mass1 prob_mass_1 lo hi (Some "mass_1_source") in
  let secondary_mass_prior := Uniform minimum maximum (Some "mass_2_source") in
  tier1_class (mass_model self) = None →
  str_in "uniformsecondary" (mass_model self) = true →
  new_model E SinglePeakSmoothedMassDistribution (1000, 1000)%nat = inr model →
  p_m1 E model {[ "mass_1" := mass1 ]} mass_parameters = inr prob_mass_1 →
  Np.min mass1 = inr lo →
  Np.max mass1 = inr hi →
  prior_init E primary_mass_prior = None →
  prior_sample E primary_mass_prior n g = (inr v1, g1) →
  parameters self !! "minimum_secondary_mass" = Some minimum →
  parameters self !! "maximum_secondary_mass" = Some maximum →
  prior_init E secondary_mass_prior = None →
  prior_sample E secondary_mass_prior n g1 = (inr v2, g') →
  (∀ k v, mass_parameters !! k = Some v
          ↔ parameters self !! k = Some v ∧ k ≠ "beta"
            ∧ k ≠ "minimum_secondary_mass" ∧ k ≠ "maximum_secondary_mass")
  ∧ sample E self g lg
    = (inr (generate_mass_parameters E
              {[ "mass_1_source" := v1; "mass_2_source" := v2 ]} true),
       g', lg ++ fallback_log self).
Proof.
  intros n mass1 mass_parameters primary_mass_prior secondary_mass_prior
    Ht1 Hname Hnew Hp1 Hlo Hhi Hi1 Hd1 Hmin Hmax Hi2 Hd2.
  subst n mass1 mass_parameters primary_mass_prior secondary_mass_prior.
  split.
  { intros k v. rewrite map_lookup_filter_Some. cbn [fst].
    rewrite !not_elem_of_cons. pose proof (not_elem_of_nil k). tauto. }
  erewrite sample_run; last first.
  { rewrite sample_body_tier2 by exact Ht1.
    unfold tier2_branch. rewrite Hname. cbn [run_branch random log].
    unfold tier2_uniformsecondary.
    run_with ltac:(rewrite ?Hnew, ?Hp1, ?Hlo, ?Hhi, ?Hi1, ?Hd1, ?Hmin, ?Hmax,
                     ?Hi2, ?Hd2).
    reflexivity. }
  cbn [samples random log mbind result_bind mret result_ret].
  rewrite insert_insert_ne by discriminate. rewrite insert_empty. reflexivity.
Qed.

(** The log-normal model, for a name with [lognormal] or [loggaussian]
    (and neither [uniformsecondary] nor [doublegaussian]): both masses
    are draws, one after the other, from the log-normal prior with [mu]
    and [sigma]. *)
Theorem lognormal_model (self : Mass) (g : RandomState E)
    (lg : list (level * string)) (mu sigma : Qc) (v1 v2 : list Qc)
    (g' : RandomState E) :
  tier1_class (mass_model self) = None →
  str_in "uniformsecondary" (mass_model self) = false →
  str_in "doublegaussian" (mass_model self) = false →
  str_in "lognormal" (mass_model self) = true
    ∨ str_in "loggaussian" (mass_model self) = true →
  parameters self !! "mu" = Some mu →
  parameters self !! "sigma" = Some sigma →
  prior_init E (LogNormal mu sigma) = None →
  Spec.two_draws E (LogNormal mu sigma) (number_of_samples self) g v1 v2 g' →
  sample E self g lg
  = (inr (generate_mass_parameters E
            {[ "mass_1_source" := v1; "mass_2_source" := v2 ]} true),
     g', lg ++ fallback_log self).
Proof.
  intros Ht1 Hus Hdg Hname Hmu Hsigma Hi (g1 & Hd1 & Hd2).
  erewrite sample_run; last first.
  { rewrite sample_body_tier2 by exact Ht1.
    unfold tier2_branch. rewrite Hus, Hdg.
    replace (str_in "lognormal" (mass_model self)
             || str_in "loggaussian" (mass_model self)) with true
      by (symmetry; apply orb_true_iff; exact Hname).
    cbn [run_branch random log]. unfold tier2_lognormal.
    run_with ltac:(rewrite ?Hmu, ?Hsigma, ?Hi, ?Hd1, ?Hd2).
    reflexivity. }
  cbn [samples random log mbind result_bind mret result_ret].
  rewrite insert_insert_ne by discriminate. rewrite insert_empty. reflexivity.
Qed.

(** The plain power-law model: both masses are draws, one after the
    other, from the power law with exponent [alpha] on [mmin]..[mmax]. *)
Theorem powerlaw_model (self : Mass) (g : RandomState E)
    (lg : list (level * string)) (alpha mmin mmax : Qc) (v1 v2 : list Qc)
    (g' : RandomState E) :
  tier1_class (mass_model self) = None →
  tier2_branch (mass_model self) = B_powerlaw →
  parameters self !! "alpha" = Some alpha →
  parameters self !! "mmin" = Some mmin →
  parameters self !! "mmax" = Some mmax →
  prior_init E (PowerLaw alpha mmin mmax) = None →
  Spec.two_draws E (PowerLaw alpha mmin mmax) (number_of_samples self) g v1 v2 g' →
  sample E self g lg
  = (inr (generate_mass_parameters E
            {[ "mass_1_source" := v1; "mass_2_source" := v2 ]} true),
     g', lg ++ fallback_log self).
Proof.
  intros Ht1 Ht2 Ha Hmmin Hmmax Hi Hdraws.
  erewrite sample_run; last first.
  { rewrite sample_body_tier2 by exact Ht1. rewrite Ht2.
    cbn [run_branch random log].
    erewrite powerlaw_run; [reflexivity|eassumption..]. }
  cbn [samples random log mbind result_bind mret result_ret].
  rewrite insert_insert_ne by discriminate. rewrite insert_empty. reflexivity.
Qed.

End Models.

Lemma tier1_success_witness :
  let E := Fixture.env true in
  let self := {| mass_model := "powerlawpeak"; number_of_samples := 2;
                 parameters := default_parameters |} in
  sample E self 0%nat []
  = (inr (Fixture.add_total_mass
            {[ "mass_1_source" := replicate 2 (dec 2 1);
               "mass_ratio" := replicate 2 (dec 1 10) ]} true),
     2%nat, []).
Proof.
  intros E self.
  exact (tier1_success E self 0%nat [] SinglePeakSmoothedMassDistribution
           SinglePeakSmoothedMassDistribution
           [dec 1 1; dec 1 1; dec 1 1] [dec 1 1; dec 1 1; dec 1 1]
           (dec 2 1) (dec 100 1) (dec 1 10) (dec 1 1)
           (replicate 2 (dec 2 1)) (replicate 2 (dec 1 10)) 1%nat 2%nat
           eq_refl eq_refl eq_refl eq_refl eq_refl eq_refl eq_refl eq_refl
           eq_refl eq_refl eq_refl eq_refl).
Defined.

Lemma uniformsecondary_model_witness :
  let E := Fixture.env true in
  let self := {| mass_model := "uniformsecondary"; number_of_samples := 2;
                 parameters := Fixture.uniformsecondary_parameters |} in
  sample E self 0%nat []
  = (inr (Fixture.add_total_mass
            {[ "mass_1_source" := replicate 2 (dec 2 1);
               "mass_2_source" := replicate 2 (dec 1 1) ]} true),
     2%nat, [] ++ fallback_log self).
Proof.
  intros E self.
  exact (proj2
    (uniformsecondary_model E self 0%nat [] SinglePeakSmoothedMassDistribution
       [dec 1 1; dec 1 1; dec 1 1] (dec 2 1) (dec 100 1) (dec 1 1) (dec 3 1)
       (replicate 2 (dec 2 1)) (replicate 2 (dec 1 1)) 1%nat 2%nat
       eq_refl eq_refl eq_refl eq_refl eq_refl eq_refl eq_refl eq_refl
       eq_refl eq_refl eq_refl eq_refl)).
Defined.

Lemma lognormal_model_witness :
  let E := Fixture.env false in
  let self := {| mass_model := "lognormal"; number_of_samples := 2;
                 parameters := Fixture.lognormal_parameters |} in
  sample E self 0%nat []
  = (inr (Fixture.add_total_mass
            {[ "mass_1_source" := replicate 2 1;
               "mass_2_source" := replicate 2 1 ]} true),
     2%nat, [] ++ fallback_log self).
Proof.
  intros E self.
  refine (lognormal_model E self 0%nat [] (dec 3 1) (dec 1 2)
            (replicate 2 1) (replicate 2 1) 2%nat
            eq_refl eq_refl eq_refl (or_introl eq_refl) eq_refl eq_refl eq_refl _).
  exists 1%nat. split; reflexivity.
Defined.

Lemma powerlaw_model_witness :
  let E := Fixture.env false in
  let self := {| mass_model := "powerlaw"; number_of_samples := 2;
                 parameters := default_parameters |} in
  sample E self 0%nat []
  = (inr (Fixture.add_total_mass
            {[ "mass_1_source" := replicate 2 (dec 489 100);
               "mass_2_source" := replicate 2 (dec 489 100) ]} true),
     2%nat, [] ++ fallback_log self).
Proof.
  intros E self.
  refine (powerlaw_model E self 0%nat [] (dec 337 100) (dec 489 100)
            (dec 8881 100) (replicate 2 (dec 489 100))
            (replicate 2 (dec 489 100)) 2%nat
            eq_refl eq_refl eq_refl eq_refl eq_refl eq_refl _).
  exists 1%nat. split; reflexivity.
Defined.

(** ** Errors and what a run leaves behind *)

Section Errors.

Variable E : Externals.

Lemma str_in_false_of_part (a b name : string) :
  str_in a b = true → str_in a name = false → str_in b name = false.
Proof.
  intros Hab Ha. destruct (str_in b name) eqn:Hb; [|reflexivity].
  rewrite (str_in_trans a b name Hab Hb) in Ha. discriminate Ha.
Qed.

(** A name with none of [multipeak], [uniformsecondary], [doublegaussian],
    [lognormal], [loggaussian], [dip], [powerlaw] and [fixed] is
    unrecognized: whatever the parameters and the outside world,
    [sample] raises the [ValueError] whose message is the name followed
    by the text and the list below; no draw is taken and the warning and
    the info record are logged. *)
Theorem unrecognized_model_error (self : Mass) (g : RandomState E)
    (lg : list (level * string)) :
  let name := mass_model self in
  str_in "multipeak" name = false →
  str_in "uniformsecondary" name = false →
  str_in "doublegaussian" name = false →
  str_in "lognormal" name = false →
  str_in "loggaussian" name = false →
  str_in "dip" name = false →
  str_in "powerlaw" name = false →
  str_in "fixed" name = false →
  sample E self g lg
  = (inl (ValueError
            (name +:+ " is not implemented in gwpopulation. Please choose from ['PowerLaw+Peak', 'MultiPeak', 'BrokenPowerLaw', 'UniformSecondary', 'DoubleGaussian', 'LogNormal', 'PowerLawDipBreak', 'PowerLaw']")),
     g, lg ++ fallback_log self).
Proof.
  intros name Hmp Hus Hdg Hln Hlg Hdip Hpl Hfx.
  assert (str_in "powerlawpeak" name = false) as Hplp
    by (by apply (str_in_false_of_part "powerlaw")).
  assert (str_in "brokenpowerlaw" name = false) as Hbpl
    by (by apply (str_in_false_of_part "powerlaw")).
  rewrite sample_unrecognized.
  - reflexivity.
  - apply tier1_class_None. by fold name.
  - unfold tier2_branch. fold name. by rewrite Hus, Hdg, Hln, Hlg, Hdip, Hpl, Hfx.
Qed.

(** A branch that starts by reading a parameter raises [KeyError] with
    the name of this parameter when the mapping lacks it; no draw is
    taken before. *)
Theorem missing_first_parameter (self : Mass) (g : RandomState E)
    (lg : list (level * string)) (k : string) :
  tier1_class (mass_model self) = None →
  first_parameter (tier2_branch (mass_model self)) = Some k →
  parameters self !! k = None →
  sample E self g lg = (inl (KeyError k), g, lg ++ fallback_log self).
Proof.
  intros Ht1 Hfirst Hk. erewrite sample_run; last first.
  { rewrite sample_body_tier2 by exact Ht1.
    destruct (tier2_branch (mass_model self)); cbn in Hfirst;
      try discriminate Hfirst; injection Hfirst as <-;
      cbn [run_branch];
      unfold tier2_doublegaussian, tier2_lognormal, tier2_dip, tier2_powerlaw,
        tier2_fixed;
      run_with ltac:(rewrite ?Hk); reflexivity. }
  reflexivity.
Qed.

Lemma notch_filter_keys (val out : list Qc) (parameters : gmap string Qc) :
  notch_filter E val parameters = inr out →
  ∀ k, k ∈ notch_keys → is_Some (parameters !! k).
Proof.
  unfold notch_filter, getitem, notch_keys. intros H k Hk.
  destruct (parameters !! "A") eqn:HA; [|discriminate H].
  destruct (parameters !! "gamma_low") eqn:Hgl; [|discriminate H].
  destruct (parameters !! "eta_low") eqn:Hel; [|discriminate H].
  destruct (parameters !! "gamma_high") eqn:Hgh; [|discriminate H].
  destruct (parameters !! "eta_high") eqn:Heh; [|discriminate H].
  clear H.
  repeat (apply elem_of_cons in Hk as [->|Hk]; [by eexists|]).
  by apply elem_of_nil in Hk.
Qed.

Lemma low_pass_filter_keys (val out : list Qc) (parameters : gmap string Qc) :
  low_pass_filter E val parameters = inr out →
  ∀ k, k ∈ low_pass_keys → is_Some (parameters !! k).
Proof.
  unfold low_pass_filter, getitem, low_pass_keys. intros H k Hk.
  destruct (parameters !! "mmax") eqn:Hmmax; [|discriminate H].
  destruct (parameters !! "n") eqn:Hn; [|discriminate H].
  clear H.
  repeat (apply elem_of_cons in Hk as [->|Hk]; [by eexists|]).
  by apply elem_of_nil in Hk.
Qed.

Lemma run_branch_parameters (b : branch) (self : Mass) (s : state E) :
  post E (run_branch E b self) (λ _ _, True)
    (λ _ _, ∀ k, k ∈ required_parameters b → is_Some (parameters self !! k)) s.
Proof.
  destruct b; cbn [run_branch required_parameters];
    unfold tier2_uniformsecondary, tier2_doublegaussian, tier2_lognormal,
      tier2_dip, tier2_powerlaw, tier2_fixed, tier2_else;
    post_run; try exact I.
  all: repeat match goal with
       | H : notch_filter _ _ _ = inr _ |- _ =>
           let H' := fresh in
           pose proof (notch_filter_keys _ _ _ H) as H';
           unfold notch_keys in H'; clear H
       | H : low_pass_filter _ _ _ = inr _ |- _ =>
           let H' := fresh in
           pose proof (low_pass_filter_keys _ _ _ H) as H';
           unfold low_pass_keys in H'; clear H
       | H : Np.min _ = _ |- _ => clear H
       | H : Np.max _ = _ |- _ => clear H
       | H : prior_init _ _ = _ |- _ => clear H
       | H : prior_sample _ _ _ _ = _ |- _ => clear H
       end.
  all: intros k Hk.
  all: repeat (apply elem_of_cons in Hk as [->|Hk];
               [first [by eexists
                      | match goal with
                        | H : ∀ k, k ∈ _ → is_Some _ |- _ =>
                            solve [apply H; repeat constructor]
                        end]|]).
  all: by apply elem_of_nil in Hk.
Qed.

(** When the first tier is not taken and [sample] returns, the parameter
    mapping has every parameter of the branch of the name: a missing one
    makes [sample] raise. *)
Theorem successful_sample_has_parameters (self : Mass) (g : RandomState E)
    (lg : list (level * string)) (m : gmap string (list Qc))
    (g' : RandomState E) (lg' : list (level * string)) :
  tier1_class (mass_model self) = None →
  sample E self g lg = (inr m, g', lg') →
  ∀ k, k ∈ required_parameters (tier2_branch (mass_model self)) →
       is_Some (parameters self !! k).
Proof.
  intros Ht1. unfold sample.
  rewrite sample_body_tier2 by exact Ht1. cbn [random log].
  pose proof (run_branch_parameters (tier2_branch (mass_model self)) self
                (State E ∅ g (lg ++ fallback_log self))) as Hp.
  unfold post in Hp.
  destruct (run_branch E _ self _) as [[e|[]] s']; [discriminate|].
  intros _. exact Hp.
Qed.

End Errors.

Lemma unrecognized_model_error_witness :
  let E := Fixture.env true in
  let self := {| mass_model := "gaussian"; number_of_samples := 2;
                 parameters := default_parameters |} in
  sample E self 0%nat []
  = (inl (ValueError
            ("gaussian" +:+ " is not implemented in gwpopulation. Please choose from ['PowerLaw+Peak', 'MultiPeak', 'BrokenPowerLaw', 'UniformSecondary', 'DoubleGaussian', 'LogNormal', 'PowerLawDipBreak', 'PowerLaw']")),
     0%nat, [] ++ fallback_log self).
Proof.
  intros E self.
  exact (unrecognized_model_error E self 0%nat []
           eq_refl eq_refl eq_refl eq_refl eq_refl eq_refl eq_refl eq_refl).
Defined.

Lemma missing_first_parameter_witness :
  let E := Fixture.env false in
  let self := {| mass_model := "fixed"; number_of_samples := 2;
                 parameters := default_parameters |} in
  sample E self 0%nat []
  = (inl (KeyError "primary_mass"), 0%nat, [] ++ fallback_log self).
Proof.
  intros E self.
  exact (missing_first_parameter E self 0%nat [] "primary_mass"
           eq_refl eq_refl eq_refl).
Defined.

Lemma fixture_powerlaw_sample :
  sample (Fixture.env false)
    {| mass_model := "powerlaw"; number_of_samples := 2;
       parameters := default_parameters |} 0%nat []
  = (inr (Fixture.add_total_mass
            (<[ "mass_2_source" := replicate 2 (dec 489 100) ]>
               (<[ "mass_1_source" := replicate 2 (dec 489 100) ]> ∅)) true),
     2%nat,
     [(WARNING, "Parameterised mass model does not exist in gwpopulation");
      (INFO, "Generating samples using powerlaw model")]).
Proof. reflexivity. Qed.

Lemma successful_sample_has_parameters_witness :
  let self := {| mass_model := "powerlaw"; number_of_samples := 2;
                 parameters := default_parameters |} in
  is_Some (parameters self !! "alpha").
Proof.
  intros self.
  refine (successful_sample_has_parameters (Fixture.env false) self 0%nat []
            _ _ _ eq_refl fixture_powerlaw_sample "alpha" _).
  repeat constructor.
Defined.

(** ** The mapping that a run builds *)

Section Keys.

Variable E : Externals.

Lemma dom_masses (smp : gmap string (list Qc)) (v1 v2 : list Qc) :
  smp = ∅ ∨ (∃ v, smp = <[ "mass_1_source" := v ]> ∅) →
  dom (<[ "mass_2_source" := v2 ]> (<[ "mass_1_source" := v1 ]> smp))
  = ({[ "mass_1_source"; "mass_2_source" ]} : gset string).
Proof.
  intros [->|[v ->]]; rewrite !dom_insert_L, dom_empty_L; set_solver.
Qed.

Lemma dom_ratio (v1 v2 : list Qc) :
  dom (<[ "mass_ratio" := v2 ]> (<[ "mass_1_source" := v1 ]>
         (∅ : gmap string (list Qc))))
  = ({[ "mass_1_source"; "mass_ratio" ]} : gset string).
Proof. rewrite !dom_insert_L, dom_empty_L. set_solver. Qed.

Lemma tier1_keys (self : Mass) (g : RandomState E) (lg : list (level * string)) :
  post E (tier1 E self) (λ _ _, True)
    (λ _ s', dom (samples E s')
             = ({[ "mass_1_source"; "mass_ratio" ]} : gset string))
    (State E ∅ g lg).
Proof.
  unfold tier1.
  destruct (str_in "powerlawpeak" _); [|destruct (str_in "multipeak" _);
    [|destruct (str_in "brokenpowerlaw" _)]]; post_run;
    first [exact I | apply dom_ratio].
Qed.

Lemma run_branch_keys (b : branch) (self : Mass) (s : state E) :
  samples E s = ∅ ∨ (∃ v, samples E s = <[ "mass_1_source" := v ]> ∅) →
  post E (run_branch E b self) (λ _ _, True)
    (λ _ s', dom (samples E s')
             = ({[ "mass_1_source"; "mass_2_source" ]} : gset string)) s.
Proof.
  intros Hs.
  destruct b; cbn [run_branch];
    unfold tier2_uniformsecondary, tier2_doublegaussian, tier2_lognormal,
      tier2_dip, tier2_powerlaw, tier2_fixed, tier2_else;
    post_run; first [exact I | apply dom_masses; exact Hs].
Qed.

(** The mapping that [sample] hands to the conversion utility has exactly
    two entries.  Either the first tier ran through: the entries are
    [mass_1_source] and [mass_ratio] and nothing was logged.  Or the
    [except] block ran: the entries are [mass_1_source] and
    [mass_2_source], nothing that the first tier drew is left, and the
    log has the warning and the info record. *)
Theorem sample_keys (self : Mass) (g : RandomState E)
    (lg : list (level * string)) (s' : state E) :
  sample_body E self (State E ∅ g lg) = (inr (), s') →
  (is_Some (tier1_class (mass_model self))
   ∧ dom (samples E s') = ({[ "mass_1_source"; "mass_ratio" ]} : gset string)
   ∧ log E s' = lg)
  ∨ (dom (samples E s') = ({[ "mass_1_source"; "mass_2_source" ]} : gset string)
     ∧ log E s' = lg ++ fallback_log self).
Proof.
  unfold sample_body, try_except. cbn [random log].
  pose proof (tier1_keys self g lg) as Hk.
  pose proof (tier1_log E self (State E ∅ g lg)) as Hl.
  pose proof (tier1_leaves E self g lg) as Hleft.
  pose proof (tier1_unbound E self (State E ∅ g lg)) as Hun.
  unfold post in Hk, Hl, Hleft.
  destruct (tier1 E self (State E ∅ g lg)) as [[e1|[]] s1].
  - intros H2. right. rewrite tier2_dispatch in H2.
    pose proof (run_branch_keys (tier2_branch (mass_model self)) self
                  (State E (samples E s1) (random E s1)
                     (log E s1 ++ fallback_log self)) Hleft) as Hk2.
    pose proof (run_branch_log E (tier2_branch (mass_model self)) self
                  (State E (samples E s1) (random E s1)
                     (log E s1 ++ fallback_log self))) as Hl2.
    unfold post in Hk2, Hl2. rewrite H2 in Hk2, Hl2.
    split; [exact Hk2|]. rewrite Hl2. cbn [log]. rewrite Hl. reflexivity.
  - intros [= <-]. left. split; [|split; [exact Hk | exact Hl]].
    destruct (tier1_class (mass_model self)) eqn:Hc; [by eexists|].
    specialize (Hun eq_refl). discriminate Hun.
Qed.

End Keys.

Lemma sample_keys_witness :
  let E := Fixture.env false in
  let self := {| mass_model := "powerlaw"; number_of_samples := 2;
                 parameters := default_parameters |} in
  let s' := State E
              (<[ "mass_2_source" := replicate 2 (dec 489 100) ]>
                 (<[ "mass_1_source" := replicate 2 (dec 489 100) ]> ∅))
              2%nat ([] ++ fallback_log self) in
  (is_Some (tier1_class (mass_model self))
   ∧ dom (samples E s') = ({[ "mass_1_source"; "mass_ratio" ]} : gset string)
   ∧ log E s' = [])
  ∨ (dom (samples E s') = ({[ "mass_1_source"; "mass_2_source" ]} : gset string)
     ∧ log E s' = [] ++ fallback_log self).
Proof.
  intros E self s'. exact (sample_keys E self 0%nat [] s' eq_refl).
Defined.

(** ** The fixed model: the secondary mass is not above the primary *)

Lemma Qcinv_le_1 (q : Qc) : 1 ≤ q → / q ≤ 1.
Proof.
  intros Hq. assert (0 < q) as Hpos by (by apply (Qclt_le_trans 0 1 q)).
  apply (Qcmult_le_mono_pos_r _ _ q Hpos).
  rewrite Qcmult_inv_l, Qcmult_1_l by (by apply not_symmetry, Qclt_not_eq).
  exact Hq.
Qed.

(** The factor of the secondary mass is at most 1. *)
Lemma fixed_factor_le_1 (q : Qc) :
  (if bool_decide (q < 1) then q else 1 / q) ≤ 1.
Proof.
  case_bool_decide as Hq.
  - by apply Qclt_le_weak.
  - unfold Qcdiv. rewrite Qcmult_1_l. by apply Qcinv_le_1, Qcnot_lt_le.
Qed.

Section Fixed.

Variable E : Externals.

(** For a primary mass that is not negative, no entry of [mass_2_source]
    of the fixed model is above the entry of [mass_1_source] at the same
    place, whatever the mass ratio. *)
Theorem fixed_secondary_at_most_primary (self : Mass) (g : RandomState E)
    (lg : list (level * string)) (pm q : Qc) :
  tier1_class (mass_model self) = None →
  tier2_branch (mass_model self) = B_fixed →
  parameters self !! "primary_mass" = Some pm →
  parameters self !! "mass_ratio" = Some q →
  0 ≤ pm →
  ∃ m1 m2,
    sample_body E self (State E ∅ g lg)
    = (inr (),
       State E {[ "mass_1_source" := m1; "mass_2_source" := m2 ]} g
         (lg ++ fallback_log self))
    ∧ length m1 = number_of_samples self
    ∧ length m2 = number_of_samples self
    ∧ ∀ i a b, m1 !! i = Some a → m2 !! i = Some b → b ≤ a.
Proof.
  intros Ht1 Ht2 Hpm Hq Hpos.
  eexists _, _. split; [|split; [|split]].
  - rewrite sample_body_tier2, Ht2 by exact Ht1. cbn [run_branch random log].
    rewrite (fixed_run E self _ pm q Hpm Hq). cbn [samples random log].
    rewrite insert_insert_ne by discriminate. rewrite insert_empty. reflexivity.
  - apply length_replicate.
  - apply length_replicate.
  - intros i a b [-> _]%lookup_replicate [-> _]%lookup_replicate.
    rewrite <- (Qcmult_1_r pm) at 2.
    apply Qcmult_le_mono_nonneg_l; [exact Hpos | apply fixed_factor_le_1].
Qed.

End Fixed.

Lemma fixed_secondary_at_most_primary_witness :
  let E := Fixture.env false in
  let self := {| mass_model := "fixed"; number_of_samples := 3;
                 parameters := Fixture.fixed_parameters (dec 2 1) |} in
  ∃ m1 m2,
    sample_body E self (State E ∅ 0%nat [])
    = (inr (),
       State E {[ "mass_1_source" := m1; "mass_2_source" := m2 ]} 0%nat
         ([] ++ fallback_log self))
    ∧ length m1 = 3%nat ∧ length m2 = 3%nat
    ∧ ∀ i a b, m1 !! i = Some a → m2 !! i = Some b → b ≤ a.
Proof.
  intros E self.
  apply (fixed_secondary_at_most_primary E self 0%nat [] (dec 30 1) (dec 2 1));
    reflexivity || discriminate.
Defined.

(** ** The second exponent of the dip model *)

Section DipExponent.

Variable E : Externals.

(** The branch up to the construction of the interpolated prior. *)
Lemma dip_run_sampler (self : Mass) (s : state E) (d : Spec.dip_parameters) :
  Spec.holds_dip (parameters self) d →
  prior_init E (PowerLaw (Spec.d_alpha_1 d) (Spec.d_mmin d) (Spec.d_gamma_high d))
    = None →
  prior_init E (PowerLaw (Spec.d_alpha_2 d) (Spec.d_mmin d) (Spec.d_gamma_high d))
    = None →
  tier2_dip E self s
  = (lo ← lift E (Np.min (Np.linspace (Spec.d_mmin d) (Spec.d_mmax d) 5001));
     hi ← lift E (Np.max (Np.linspace (Spec.d_mmin d) (Spec.d_mmax d) 5001));
     prior ← construct E
       (Interped (Np.linspace (Spec.d_mmin d) (Spec.d_mmax d) 5001)
          (Spec.dip_density E d
             <$> Np.linspace (Spec.d_mmin d) (Spec.d_mmax d) 5001) lo hi None);
     v ← draw E prior (number_of_samples self);
     setitem E "mass_1_source" v;;
     v ← draw E prior (number_of_samples self);
     setitem E "mass_2_source" v) s.
Proof.
  intros (HA & Hgl & Hel & Hgh & Heh & Hmmin & Hmmax & Hn & Ha1 & Ha2) Hi1 Hi2.
  pose proof (λ val, notch_filter_fmap E val _ _ _ _ _ _ HA Hgl Hel Hgh Heh)
    as Hnotch.
  pose proof (λ val, low_pass_filter_fmap E val _ _ _ Hmmax Hn) as Hlow.
  unfold tier2_dip.
  run_with ltac:(rewrite ?Hmmin, ?Hmmax, ?Ha1, ?Ha2, ?Hgh, ?Hi1, ?Hi2,
                   ?Hnotch, ?Hlow).
  rewrite (dip_array E d _ _ _ eq_refl eq_refl).
  reflexivity.
Qed.

(** When a power-law density is zero above its maximum, the exponent
    [alpha_2] of the dip model has no effect: replacing it in the
    parameters changes nothing of what [sample] returns or raises, of the
    random generator or of the log. *)
Theorem dip_alpha_2_has_no_effect (self : Mass) (g : RandomState E)
    (lg : list (level * string)) (d : Spec.dip_parameters) (alpha_2' : Qc) :
  (∀ alpha minimum maximum v,
     maximum < v → prior_prob E (PowerLaw alpha minimum maximum) v = 0) →
  tier1_class (mass_model self) = None →
  tier2_branch (mass_model self) = B_dip →
  Spec.holds_dip (parameters self) d →
  prior_init E (PowerLaw (Spec.d_alpha_1 d) (Spec.d_mmin d) (Spec.d_gamma_high d))
    = None →
  prior_init E (PowerLaw (Spec.d_alpha_2 d) (Spec.d_mmin d) (Spec.d_gamma_high d))
    = None →
  prior_init E (PowerLaw alpha_2' (Spec.d_mmin d) (Spec.d_gamma_high d)) = None →
  sample E {| mass_model := mass_model self;
              number_of_samples := number_of_samples self;
              parameters := <[ "alpha_2" := alpha_2' ]> (parameters self) |} g lg
  = sample E self g lg.
Proof.
  intros Hzero Ht1 Ht2 Hd Hi1 Hi2 Hi2'.
  set (d' := {| Spec.d_A := Spec.d_A d; Spec.d_gamma_low := Spec.d_gamma_low d;
                Spec.d_eta_low := Spec.d_eta_low d;
                Spec.d_gamma_high := Spec.d_gamma_high d;
                Spec.d_eta_high := Spec.d_eta_high d;
                Spec.d_mmin := Spec.d_mmin d; Spec.d_mmax := Spec.d_mmax d;
                Spec.d_n := Spec.d_n d; Spec.d_alpha_1 := Spec.d_alpha_1 d;
                Spec.d_alpha_2 := alpha_2' |}).
  set (self' := {| mass_model := mass_model self;
                   number_of_samples := number_of_samples self;
                   parameters := <[ "alpha_2" := alpha_2' ]> (parameters self) |}).
  assert (Spec.holds_dip (parameters self') d') as Hd'.
  { destruct Hd as (HA & Hgl & Hel & Hgh & Heh & Hmmin & Hmmax & Hn & Ha1 & Ha2).
    unfold Spec.holds_dip. cbn [parameters self' d' Spec.d_A Spec.d_gamma_low
      Spec.d_eta_low Spec.d_gamma_high Spec.d_eta_high Spec.d_mmin Spec.d_mmax
      Spec.d_n Spec.d_alpha_1 Spec.d_alpha_2].
    rewrite !lookup_insert_ne by discriminate. rewrite lookup_insert_eq.
    repeat split; assumption. }
  assert (∀ m, Spec.dip_density E d' m = Spec.dip_density E d m) as Hsame.
  { intros m. unfold Spec.dip_density. cbn [d' Spec.d_A Spec.d_gamma_low
      Spec.d_eta_low Spec.d_gamma_high Spec.d_eta_high Spec.d_mmin Spec.d_mmax
      Spec.d_n Spec.d_alpha_1 Spec.d_alpha_2].
    case_bool_decide as Hm; [reflexivity|].
    rewrite !Hzero by (by apply Qcnot_le_lt). reflexivity. }
  unfold sample.
  rewrite !sample_body_tier2 by exact Ht1.
  change (mass_model self') with (mass_model self). rewrite Ht2.
  cbn [run_branch random log].
  rewrite (dip_run_sampler self' _ d' Hd' Hi1 Hi2').
  rewrite (dip_run_sampler self _ d Hd Hi1 Hi2).
  cbn [d' Spec.d_mmin Spec.d_mmax].
  rewrite (list_fmap_ext (Spec.dip_density E d') (Spec.dip_density E d)
             (Np.linspace (Spec.d_mmin d) (Spec.d_mmax d) 5001))
    by (intros; apply Hsame).
  reflexivity.
Qed.

End DipExponent.

Lemma dip_alpha_2_has_no_effect_witness :
  let E := Fixture.env false in
  sample E {| mass_model := "powerlawdipbreak"; number_of_samples := 2;
              parameters := <[ "alpha_2" := dec 7 1 ]> Fixture.dip_parameters |}
    0%nat []
  = sample E {| mass_model := "powerlawdipbreak"; number_of_samples := 2;
                parameters := Fixture.dip_parameters |} 0%nat [].
Proof.
  intros E.
  exact (dip_alpha_2_has_no_effect E
           {| mass_model := "powerlawdipbreak"; number_of_samples := 2;
              parameters := Fixture.dip_parameters |}
           0%nat [] Fixture.dip_values (dec 7 1)
           (fixture_powerlaw_zero false) eq_refl eq_refl fixture_holds_dip
           eq_refl eq_refl eq_refl).
Defined.

(** ** An error of the second tier is not caught *)

Section Uncaught.

Variable E : Externals.

(** The uniform-secondary model needs gwpopulation as well, and its
    branch is outside the [try] block: when the construction of the
    single-peak model raises there, [sample] raises the same exception,
    after the warning and the info record were logged and before any
    draw is taken. *)
Theorem uniformsecondary_needs_gwpopulation (self : Mass)
    (g : RandomState E) (lg : list (level * string)) (e : exn) :
  tier1_class (mass_model self) = None →
  str_in "uniformsecondary" (mass_model self) = true →
  new_model E SinglePeakSmoothedMassDistribution (1000, 1000)%nat = inl e →
  sample E self g lg = (inl e, g, lg ++ fallback_log self).
Proof.
  intros Ht1 Hname Hnew. erewrite sample_run; last first.
  { rewrite sample_body_tier2 by exact Ht1.
    unfold tier2_branch. rewrite Hname. cbn [run_branch random log].
    unfold tier2_uniformsecondary.
    run_with ltac:(rewrite ?Hnew). reflexivity. }
  reflexivity.
Qed.

End Uncaught.

Lemma uniformsecondary_needs_gwpopulation_witness :
  let E := Fixture.env false in
  let self := {| mass_model := "uniformsecondary"; number_of_samples := 2;
                 parameters := Fixture.uniformsecondary_parameters |} in
  sample E self 0%nat []
  = (inl (LibraryError "ModuleNotFoundError: No module named 'gwpopulation'"),
     0%nat, [] ++ fallback_log self).
Proof.
  intros E self.
  exact (uniformsecondary_needs_gwpopulation E self 0%nat []
           (LibraryError "ModuleNotFoundError: No module named 'gwpopulation'")
           eq_refl eq_refl eq_refl).
Defined.
